(** * Eye-disease record API: the resolvers of [index.js]

    A shallow embedding of the resolver set [root] of [src/todo/index.js]
    (the in-memory store [recordsData]/[nextId], the helpers [isValidDate]
    and [nowISO], and the five resolvers), followed by the properties the
    specification states about them.

    Conventions of the embedding.
    - A JavaScript string is a [string]; every [ascii] stands for one code
      unit below 256, so [trim] knows the white space of that range only.
    - A resolver argument is a [value]: [undefined], [null], a boolean, an
      integer-valued number, or a string. [String(n)] of such a number is
      its decimal form (true of JavaScript below 10^21).
    - [nextId] is a [Z]; the counter stays far below 2^53, where JavaScript
      numbers stop being exact.
    - A resolver is a function from the store to a completion (a returned
      value or a thrown error) and the store it leaves behind; a thrown
      error therefore still shows the writes made before it.
    - The array [recordsData] is a [list]; a record object that the source
      mutates in place is the list element at the index where [find] found
      it.
    - [Date.parse] and [Date.prototype.toISOString] belong to the JavaScript
      engine, not to this repository; they are the two operations of the
      class [DateEngine]. The current instant read by [nowISO] is an
      argument of [addRecord]. *)

From Stdlib Require Import ZArith Ascii String Lia.
From stdpp Require Import base option list strings pretty numbers sorting.

Local Open Scope string_scope.
Local Open Scope list_scope.
Local Open Scope Z_scope.

(** ** JavaScript values and the conversions the resolvers rely on *)

Inductive value : Type :=
  | VUndefined
  | VNull
  | VBool (b : bool)
  | VNum (n : Z)
  | VStr (s : string).

(** [String(v)], which is also what a template literal does to [v]. *)
Definition ToString (v : value) : string :=
  match v with
  | VUndefined => "undefined"
  | VNull => "null"
  | VBool true => "true"
  | VBool false => "false"
  | VNum n => pretty n
  | VStr s => s
  end.

(** [!!v]. *)
Definition truthy (v : value) : bool :=
  match v with
  | VUndefined | VNull => false
  | VBool b => b
  | VNum n => negb (n =? 0)
  | VStr s => negb (String.eqb s "")
  end.

(** [typeof v === 'string'] *)
Definition is_string (v : value) : bool :=
  match v with VStr _ => true | _ => false end.

(** White space code units below 256: TAB, LF, VT, FF, CR, SP, NBSP. *)
Definition is_ws (c : ascii) : bool :=
  match N_of_ascii c with
  | 9 | 10 | 11 | 12 | 13 | 32 | 160 => true
  | _ => false
  end%N.

Fixpoint trimStart (s : string) : string :=
  match s with
  | EmptyString => EmptyString
  | String c s' => if is_ws c then trimStart s' else s
  end.

Fixpoint trimEnd (s : string) : string :=
  match s with
  | EmptyString => EmptyString
  | String c s' =>
      match trimEnd s' with
      | EmptyString => if is_ws c then EmptyString else String c EmptyString
      | t => String c t
      end
  end.

(** [s.trim()] *)
Definition trim (s : string) : string := trimEnd (trimStart s).

(** [l.join(sep)] on an array of strings. *)
Fixpoint join (sep : string) (l : list string) : string :=
  match l with
  | [] => ""
  | [x] => x
  | x :: l' => x +:+ sep +:+ join sep l'
  end.

(** [l.includes(v)] for an array [l] of strings: only a string can be equal
    to an element; the element found is returned. *)
Definition includes (l : list string) (v : value) : option string :=
  match v with
  | VStr s => if bool_decide (s ∈ l) then Some s else None
  | _ => None
  end.

(** ** The engine's date operations *)

(** [Date_parse s] is [Date.parse(s)], [None] standing for [NaN];
    [Date_toISOString t] is [toISOString()] of a valid date of time value
    [t]. *)
Class DateEngine : Type := {
  Date_parse : string → option Z;
  Date_toISOString : Z → string
}.

(** ** Records, results and the store *)

Module Rec.
Record t : Type := mk {
  id : string;
  name : string;
  disease : string;
  dateAdded : string
}.

(** The field writes [rec.name = x], [rec.disease = x],
    [rec.dateAdded = x]. *)
Definition set_name (x : string) (r : t) : t :=
  mk (id r) x (disease r) (dateAdded r).
Definition set_disease (x : string) (r : t) : t :=
  mk (id r) (name r) x (dateAdded r).
Definition set_dateAdded (x : string) (r : t) : t :=
  mk (id r) (name r) (disease r) x.
End Rec.

Global Instance Rec_eq_dec : EqDecision Rec.t.
Proof. solve_decision. Defined.

Record DeleteResult : Type := {
  success : bool;
  message : string;
  removed : option Rec.t
}.

Record Store : Type := {
  recordsData : list Rec.t;
  nextId : Z
}.

(** [DISEASES] (line 60) and the initial [recordsData] (lines 62-83). *)
Definition DISEASES : list string :=
  ["Bulging_Eyes"; "Cataracts"; "Crossed_Eyes"; "Glaucoma"; "Uveitis"].

Definition seed_records : list Rec.t := [
  Rec.mk "1"  "Aarav"  "Cataracts"    "2025-01-05T09:10:00.000Z";
  Rec.mk "2"  "Ananya" "Glaucoma"     "2025-01-06T11:22:00.000Z";
  Rec.mk "3"  "Rahul"  "Uveitis"      "2025-01-07T14:05:00.000Z";
  Rec.mk "4"  "Sneha"  "Crossed_Eyes" "2025-01-08T08:45:00.000Z";
  Rec.mk "5"  "Neha"   "Bulging_Eyes" "2025-01-09T12:30:00.000Z";
  Rec.mk "6"  "Vikram" "Cataracts"    "2025-01-10T16:40:00.000Z";
  Rec.mk "7"  "Kiran"  "Glaucoma"     "2025-01-11T10:15:00.000Z";
  Rec.mk "8"  "Isha"   "Uveitis"      "2025-01-12T07:55:00.000Z";
  Rec.mk "9"  "Rohan"  "Crossed_Eyes" "2025-01-13T18:05:00.000Z";
  Rec.mk "10" "Priya"  "Bulging_Eyes" "2025-01-14T09:00:00.000Z";
  Rec.mk "11" "Aditi"  "Glaucoma"     "2025-01-15T13:25:00.000Z";
  Rec.mk "12" "Sahil"  "Cataracts"    "2025-01-16T17:45:00.000Z";
  Rec.mk "13" "Kavya"  "Uveitis"      "2025-01-17T06:35:00.000Z";
  Rec.mk "14" "Dev"    "Crossed_Eyes" "2025-01-18T20:10:00.000Z";
  Rec.mk "15" "Meera"  "Bulging_Eyes" "2025-01-19T08:20:00.000Z";
  Rec.mk "16" "Arjun"  "Glaucoma"     "2025-01-20T15:55:00.000Z";
  Rec.mk "17" "Diya"   "Cataracts"    "2025-01-21T11:05:00.000Z";
  Rec.mk "18" "Nikhil" "Uveitis"      "2025-01-22T12:45:00.000Z";
  Rec.mk "19" "Tanvi"  "Crossed_Eyes" "2025-01-23T07:15:00.000Z";
  Rec.mk "20" "Ishan"  "Bulging_Eyes" "2025-01-24T19:30:00.000Z"
].

(** The store as the module leaves it when the server starts. *)
Definition seed : Store := {| recordsData := seed_records; nextId := 21 |}.

(** ** Completions and the resolver monad *)

Inductive exn : Type :=
  | Error (msg : string)   (* [new Error(msg)] *)
  | TypeError              (* calling a property that is not a function *)
  | RangeError.            (* [toISOString] of an invalid date *)

Inductive completion (A : Type) : Type :=
  | Return (a : A)
  | Throw (e : exn).
Arguments Return {A} a.
Arguments Throw {A} e.

Definition M (A : Type) : Type := Store → completion A * Store.

Definition ret {A} (a : A) : M A := λ st, (Return a, st).
Definition throw {A} (e : exn) : M A := λ st, (Throw e, st).
Definition bind {A B} (m : M A) (k : A → M B) : M B :=
  λ st, match m st with
        | (Return a, st') => k a st'
        | (Throw e, st') => (Throw e, st')
        end.

Declare Scope js_scope.
Delimit Scope js_scope with js.
Notation "'let!' x ':=' m 'in' k" := (bind m (λ x, k))
  (at level 10, x pattern, m at level 100, k at level 200) : js_scope.
Local Open Scope js_scope.

(** Reads and writes of the two module-level variables. *)
Definition get_recordsData : M (list Rec.t) := λ st, (Return (recordsData st), st).
Definition set_recordsData (l : list Rec.t) : M unit :=
  λ st, (Return tt, {| recordsData := l; nextId := nextId st |}).

(** [nextId++]: returns the old value. *)
Definition nextId_post_incr : M Z :=
  λ st, (Return (nextId st),
         {| recordsData := recordsData st; nextId := nextId st + 1 |}).

(** [recordsData.find(r => r.id === s)] together with the index at which
    the record was found ([findIndex]). *)
Definition find_by_id (s : string) (l : list Rec.t) : option (nat * Rec.t) :=
  list_find (λ r, Rec.id r = s) l.

(** [recordsData.push(r)] *)
Definition push (r : Rec.t) : M unit :=
  let! l := get_recordsData in set_recordsData (l ++ [r]).

(** [recordsData.splice(idx, 1)]: removes the element at [idx], returns the
    array of removed elements. *)
Definition splice1 (idx : nat) : M (list Rec.t) :=
  let! l := get_recordsData in
  let! _ := set_recordsData (take idx l ++ drop (S idx) l) in
  ret (take 1 (drop idx l)).

(** A field write on the record object found at index [i]: [r] is the
    object after the write. *)
Definition write_rec (i : nat) (r : Rec.t) : M Rec.t :=
  let! l := get_recordsData in
  let! _ := set_recordsData (<[i := r]> l) in
  ret r.

(** [v.trim()]: a property lookup and a call; only a string has the
    method. *)
Definition call_trim (v : value) : M string :=
  match v with
  | VStr s => ret (trim s)
  | _ => throw TypeError
  end.

Section Resolvers.
Context `{DateEngine}.

(** [isValidDate] (lines 87-91) *)
Definition isValidDate (val : value) : bool :=
  if negb (truthy val) then false
  else
    let t := Date_parse (ToString val) in
    negb (bool_decide (t = None)).

(** The time value of [new Date(v)], [None] for an invalid date. *)
Definition new_Date (v : value) : option Z :=
  let clip (n : Z) := if Z.abs n <=? 8640000000000000 then Some n else None in
  match v with
  | VStr s => Date_parse s
  | VUndefined => None
  | VNull => clip 0
  | VBool b => clip (if b then 1 else 0)
  | VNum n => clip n
  end.

(** [d.toISOString()] *)
Definition toISOString (d : option Z) : M string :=
  match d with
  | Some t => ret (Date_toISOString t)
  | None => throw RangeError
  end.

(** [nowISO] (line 92), at the instant [now]. *)
Definition nowISO (now : Z) : string := Date_toISOString now.

(** The resolvers of [root] (lines 95-146). *)

Definition records : M (list Rec.t) := get_recordsData.

(** [record] (line 98); [None] is [null]. *)
Definition record (id : value) : M (option Rec.t) :=
  let! l := get_recordsData in
  ret (snd <$> find_by_id (ToString id) l).

(** [addRecord] (lines 101-115). [blank] is the condition
    [!name || !name.trim()]; the object literal evaluates [nextId++] before
    [name.trim()], and [push] comes last. *)
Definition addRecord (now : Z) (name disease dateAdded : value) : M Rec.t :=
  let! blank :=
    (if negb (truthy name) then ret true
     else let! t := call_trim name in ret (negb (truthy (VStr t)))) in
  if blank : bool then throw (Error "Name is required.")
  else
    match includes DISEASES disease with
    | None => throw (Error ("Disease must be one of: " +:+ join ", " DISEASES))
    | Some disease =>
        let! date :=
          (if truthy dateAdded && isValidDate dateAdded
           then toISOString (new_Date dateAdded)
           else ret (nowISO now)) in
        let! n := nextId_post_incr in
        let! trimmed := call_trim name in
        let newRecord := Rec.mk (ToString (VNum n)) trimmed disease date in
        let! _ := push newRecord in
        ret newRecord
    end.

(** The three blocks of [updateRecord] (lines 121-134), one per optional
    field: each checks its argument and then writes the field. [i] is where
    the record object [rec] sits in [recordsData]. *)
Definition update_name (i : nat) (name : value) (rec : Rec.t) : M Rec.t :=
  match name with
  | VStr s =>
      if negb (truthy (VStr (trim s)))
      then throw (Error "Name cannot be empty.")
      else write_rec i (Rec.set_name (trim s) rec)
  | _ => ret rec
  end.

Definition update_disease (i : nat) (disease : value) (rec : Rec.t) : M Rec.t :=
  match disease with
  | VStr _ =>
      match includes DISEASES disease with
      | None => throw (Error ("Disease must be one of: " +:+ join ", " DISEASES))
      | Some d => write_rec i (Rec.set_disease d rec)
      end
  | _ => ret rec
  end.

Definition update_dateAdded (i : nat) (dateAdded : value) (rec : Rec.t) : M Rec.t :=
  match dateAdded with
  | VStr _ =>
      if negb (isValidDate dateAdded)
      then throw (Error "dateAdded must be a valid ISO date/time.")
      else
        let! iso := toISOString (new_Date dateAdded) in
        write_rec i (Rec.set_dateAdded iso rec)
  | _ => ret rec
  end.

(** [updateRecord] (lines 117-136) *)
Definition updateRecord (id name disease dateAdded : value) : M Rec.t :=
  let! l := get_recordsData in
  match find_by_id (ToString id) l with
  | None => throw (Error ("Record with id " +:+ ToString id +:+ " not found."))
  | Some (i, rec) =>
      let! rec := update_name i name rec in
      let! rec := update_disease i disease rec in
      let! rec := update_dateAdded i dateAdded rec in
      ret rec
  end.

(** [deleteRecord] (lines 138-145); [head gone] is the destructuring
    [const [removed] = ...]. *)
Definition deleteRecord (id : value) : M DeleteResult :=
  let! l := get_recordsData in
  match find_by_id (ToString id) l with
  | None =>
      ret {| success := false;
             message := "Record with id " +:+ ToString id +:+ " not found.";
             removed := None |}
  | Some (idx, _) =>
      let! gone := splice1 idx in
      ret {| success := true;
             message := "Record " +:+ ToString id +:+ " deleted successfully.";
             removed := head gone |}
  end.
End Resolvers.

Global Arguments update_name : simpl never.
Global Arguments update_disease : simpl never.
Global Arguments update_dateAdded : simpl never.

(** ** A concrete engine

    [iso_engine] is an engine on which the resolvers can be run: its
    [toISOString] is the one of ECMAScript, and its [parse] reads the
    complete UTC form [YYYY-MM-DDTHH:mm:ss.sssZ] of the date-time string
    format and answers [NaN] on every other string. The properties below
    hold for every engine; this one serves the examples. *)

Module Iso.
Definition msPerDay : Z := 86400000.

(** Days since the epoch of the proleptic Gregorian date [y]-[m]-[d]. *)
Definition days_from_civil (y m d : Z) : Z :=
  let y := if m <=? 2 then y - 1 else y in
  let era := y / 400 in
  let yoe := y - era * 400 in
  let doy := (153 * (if 2 <? m then m - 3 else m + 9) + 2) / 5 + d - 1 in
  let doe := yoe * 365 + yoe / 4 - yoe / 100 + doy in
  era * 146097 + doe - 719468.

(** The Gregorian date of a day number. *)
Definition civil_from_days (z : Z) : Z * Z * Z :=
  let z := z + 719468 in
  let era := z / 146097 in
  let doe := z - era * 146097 in
  let yoe := (doe - doe / 1460 + doe / 36524 - doe / 146096) / 365 in
  let doy := doe - (365 * yoe + yoe / 4 - yoe / 100) in
  let mp := (5 * doy + 2) / 153 in
  let d := doy - (153 * mp + 2) / 5 + 1 in
  let m := if mp <? 10 then mp + 3 else mp - 9 in
  ((if m <=? 2 then yoe + era * 400 + 1 else yoe + era * 400), m, d).

Definition digit_char (n : Z) : ascii :=
  ascii_of_N (Z.to_N (48 + n mod 10)).

(** [n] in decimal on exactly [w] digits. *)
Fixpoint digits (w : nat) (n : Z) : string :=
  match w with
  | O => ""
  | S w' => digits w' (n / 10) +:+ String (digit_char n) ""
  end.

Definition year_string (y : Z) : string :=
  if (0 <=? y) && (y <=? 9999) then digits 4 y
  else (if y <? 0 then "-" else "+") +:+ digits 6 (Z.abs y).

Definition toISOString (t : Z) : string :=
  let '(y, m, d) := civil_from_days (t / msPerDay) in
  let ms := t mod msPerDay in
  year_string y +:+ "-" +:+ digits 2 m +:+ "-" +:+ digits 2 d +:+ "T"
    +:+ digits 2 (ms / 3600000) +:+ ":" +:+ digits 2 (ms / 60000 mod 60) +:+ ":"
    +:+ digits 2 (ms / 1000 mod 60) +:+ "." +:+ digits 3 (ms mod 1000) +:+ "Z".

Definition digit_val (c : ascii) : option Z :=
  let n := Z.of_N (N_of_ascii c) in
  if (48 <=? n) && (n <=? 57) then Some (n - 48) else None.

(** The number written by the characters of [s], all of them digits. *)
Fixpoint number (acc : Z) (s : string) : option Z :=
  match s with
  | EmptyString => Some acc
  | String c s' =>
      match digit_val c with
      | Some v => number (10 * acc + v) s'
      | None => None
      end
  end.

Definition days_in_month (y m : Z) : Z :=
  days_from_civil (if m =? 12 then y + 1 else y) (if m =? 12 then 1 else m + 1) 1
  - days_from_civil y m 1.

Definition parse (s : string) : option Z :=
  if negb (Nat.eqb (String.length s) 24) then None
  else if negb (String.eqb (substring 4 1 s +:+ substring 7 1 s +:+ substring 10 1 s
                 +:+ substring 13 1 s +:+ substring 16 1 s +:+ substring 19 1 s
                 +:+ substring 23 1 s) "--T::.Z") then None
  else
    match number 0 (substring 0 4 s), number 0 (substring 5 2 s),
          number 0 (substring 8 2 s), number 0 (substring 11 2 s),
          number 0 (substring 14 2 s), number 0 (substring 17 2 s),
          number 0 (substring 20 3 s) with
    | Some y, Some m, Some d, Some hh, Some mm, Some ss, Some ms =>
        if (1 <=? m) && (m <=? 12) && (1 <=? d) && (d <=? days_in_month y m)
           && (mm <=? 59) && (ss <=? 59)
           && ((hh <=? 23) || ((hh =? 24) && (mm =? 0) && (ss =? 0) && (ms =? 0)))
        then Some (days_from_civil y m d * msPerDay
                   + hh * 3600000 + mm * 60000 + ss * 1000 + ms)
        else None
    | _, _, _, _, _, _, _ => None
    end.
End Iso.

Definition iso_engine : DateEngine :=
  {| Date_parse := Iso.parse; Date_toISOString := Iso.toISOString |}.

(** ** Runs of the server

    One request is one call of a resolver; [AddRecord] carries the instant
    at which the call reads the clock. *)

Inductive call : Type :=
  | Records
  | RecordById (id : value)
  | AddRecord (now : Z) (name disease dateAdded : value)
  | UpdateRecord (id name disease dateAdded : value)
  | DeleteRecord (id : value).

Inductive response : Type :=
  | RecordsDone (c : completion (list Rec.t))
  | RecordDone (c : completion (option Rec.t))
  | AddDone (c : completion Rec.t)
  | UpdateDone (c : completion Rec.t)
  | DeleteDone (c : completion DeleteResult).

Section Runs.
Context `{DateEngine}.

Definition exec (c : call) (st : Store) : response * Store :=
  match c with
  | Records => let '(r, st') := records st in (RecordsDone r, st')
  | RecordById id => let '(r, st') := record id st in (RecordDone r, st')
  | AddRecord now name disease dateAdded =>
      let '(r, st') := addRecord now name disease dateAdded st in (AddDone r, st')
  | UpdateRecord id name disease dateAdded =>
      let '(r, st') := updateRecord id name disease dateAdded st in
      (UpdateDone r, st')
  | DeleteRecord id => let '(r, st') := deleteRecord id st in (DeleteDone r, st')
  end.

(** The responses of a sequence of requests, oldest first, and the store
    after the last one. *)
Fixpoint run (cs : list call) (st : Store) : list response * Store :=
  match cs with
  | [] => ([], st)
  | c :: cs' =>
      let '(r, st') := exec c st in
      let '(rs, st'') := run cs' st' in
      (r :: rs, st'')
  end.

(** The stores the server can be in. *)
Inductive reachable : Store → Prop :=
  | reachable_seed : reachable seed
  | reachable_exec c st : reachable st → reachable (exec c st).2.
End Runs.

(** The id handed out by a response, if it is that of a successful
    [addRecord]. *)
Definition assigned_id (r : response) : option string :=
  match r with
  | AddDone (Return rec) => Some (Rec.id rec)
  | _ => None
  end.

(** The ids handed out during a run, in the order of assignment. *)
Definition assigned_ids (rs : list response) : list string := omap assigned_id rs.

(** ** Vocabulary of the properties *)

(** The store after a field write on the record at index [i]. *)
Definition put (i : nat) (r : Rec.t) (st : Store) : Store :=
  {| recordsData := <[i := r]> (recordsData st); nextId := nextId st |}.

(** No two stored records share an id, and every stored id is the decimal
    form of a number below the counter. *)
Definition store_inv (st : Store) : Prop :=
  NoDup (Rec.id <$> recordsData st) ∧
  Forall (λ r, ∃ n, Rec.id r = ToString (VNum n) ∧ n < nextId st)
         (recordsData st).

(** What the schema lets through for an argument of type [String]: a
    string, [null], or nothing. *)
Definition optional_string (v : value) : Prop :=
  match v with
  | VUndefined | VNull | VStr _ => True
  | VBool _ | VNum _ => False
  end.

(** An argument as [updateRecord] reads it: anything that is not a string
    counts as omitted. *)
Definition supplied (v : value) : value :=
  if is_string v then v else VUndefined.

Section Vocabulary.
Context `{DateEngine}.

(** The [dateAdded] that [addRecord] stores: the canonical form of a
  parseable string, the current instant otherwise. *)
Definition date_or_now (now : Z) (dateAdded : value) : string :=
match dateAdded with
| VStr t =>
    match Date_parse t with
    | Some tv => if decide (t = "") then nowISO now else Date_toISOString tv
    | None => nowISO now
    end
| _ => nowISO now
end.

(** The record that [updateRecord] leaves when every supplied field is
  accepted: each string argument overwrites its field. *)
Definition updated (name disease dateAdded : value) (r : Rec.t) : Rec.t :=
let r := match name with VStr s => Rec.set_name (trim s) r | _ => r end in
let r := match disease with VStr d => Rec.set_disease d r | _ => r end in
match dateAdded with
| VStr t =>
    match Date_parse t with
    | Some tv => Rec.set_dateAdded (Date_toISOString tv) r
    | None => r
    end
| _ => r
end.

(** The conditions under which the specification says [updateRecord]
  fails. *)
Definition update_rejected (id name disease dateAdded : value) (st : Store) : Prop :=
ToString id ∉ Rec.id <$> recordsData st
∨ (∃ s, name = VStr s ∧ trim s = "")
∨ (∃ d, disease = VStr d ∧ d ∉ DISEASES)
∨ (∃ t, dateAdded = VStr t ∧ Date_parse t = None).
End Vocabulary.

(** Two records used in the examples: the fifth seed record, and the same
    record renamed. *)
Definition Neha : Rec.t :=
  Rec.mk "5" "Neha" "Bulging_Eyes" "2025-01-09T12:30:00.000Z".
Definition Zed : Rec.t :=
  Rec.mk "5" "Zed" "Bulging_Eyes" "2025-01-09T12:30:00.000Z".

(** ** Vocabulary of the further properties *)

(** The arguments that [updateRecord] accepts, as its three blocks test
    them: a name that is not blank, a disease of the enumeration, a date
    string that is not empty and parses. An argument that is not a string
    is not tested. *)
Definition fields_accepted `{DateEngine} (name disease dateAdded : value) : Prop :=
  (∀ s, name = VStr s → trim s ≠ "")
  ∧ (∀ d, disease = VStr d → d ∈ DISEASES)
  ∧ (∀ t, dateAdded = VStr t → t ≠ "" ∧ is_Some (Date_parse t)).

(** A stored record is well formed when its name is not empty and has no
    white space at either end, and its disease is one of the five. *)
Definition well_formed (r : Rec.t) : Prop :=
  Rec.name r ≠ "" ∧ trim (Rec.name r) = Rec.name r ∧ Rec.disease r ∈ DISEASES.

(** Responses that changed the size of the collection. *)
Definition added (r : response) : bool :=
  match r with AddDone (Return _) => true | _ => false end.
Definition deleted (r : response) : bool :=
  match r with DeleteDone (Return res) => success res | _ => false end.

(** The number of responses that satisfy [f]. *)
Fixpoint count (f : response → bool) (rs : list response) : Z :=
  match rs with
  | [] => 0
  | r :: rs' => (if f r then 1 else 0) + count f rs'
  end.
(** The id whose record a call can create, change or remove. *)
Definition addressed (c : call) (st : Store) : option string :=
  match c with
  | Records | RecordById _ => None
  | AddRecord _ _ _ _ => Some (ToString (VNum (nextId st)))
  | UpdateRecord id _ _ _ | DeleteRecord id => Some (ToString id)
  end.
(** The two rejections of [updateRecord] that do not depend on the
    engine. *)
Definition blank_name (name : value) : Prop := ∃ s, name = VStr s ∧ trim s = "".
Definition unknown_disease (disease : value) : Prop :=
  ∃ d, disease = VStr d ∧ d ∉ DISEASES.
(** The record that [addRecord(name: " Test ", disease: "Glaucoma")] creates
    on the seed at the instant 1767225600123, and the store it leaves. *)
Definition Test21 : Rec.t :=
  Rec.mk "21" "Test" "Glaucoma" "2026-01-01T00:00:00.123Z".
Definition seed21 : Store :=
  {| recordsData := seed_records ++ [Test21]; nextId := 22 |}.
(** Record 5 after [updateRecord(id: "5", name: " Zed ", disease: "Uveitis")]. *)
Definition Zed_uveitis : Rec.t :=
  Rec.mk "5" "Zed" "Uveitis" "2025-01-09T12:30:00.000Z".

(** * Properties of the resolvers *)

Lemma Store_eta (st : Store) :
  {| recordsData := recordsData st; nextId := nextId st |} = st.
Proof. by destruct st. Qed.

Lemma head_drop {A} (l : list A) (i : nat) : head (take 1 (drop i l)) = l !! i.
Proof.
  revert i. induction l as [|x l IH]; intros [|i]; simpl; done.
Qed.

(** ** [find] by id *)

Lemma find_by_id_Some (s : string) (l : list Rec.t) (i : nat) (r : Rec.t) :
  find_by_id s l = Some (i, r) →
  l !! i = Some r ∧ Rec.id r = s ∧
  ∀ j x, l !! j = Some x → (j < i)%nat → Rec.id x ≠ s.
Proof. unfold find_by_id. by rewrite list_find_Some. Qed.

Lemma find_by_id_None (s : string) (l : list Rec.t) :
  find_by_id s l = None ↔ s ∉ Rec.id <$> l.
Proof.
  unfold find_by_id. rewrite list_find_None, list.Forall_forall, list_elem_of_fmap.
  split.
  - intros Hall (r & -> & Hr). by apply (Hall r).
  - intros Hnot r Hr Heq. apply Hnot. by exists r.
Qed.

Lemma find_by_id_elem_of (s : string) (l : list Rec.t) :
  s ∈ Rec.id <$> l → ∃ i r, find_by_id s l = Some (i, r).
Proof.
  intros Hin. destruct (find_by_id s l) as [[i r]|] eqn:Hfind; [by eauto|].
  by apply find_by_id_None in Hfind.
Qed.

Lemma find_by_id_NoDup (l : list Rec.t) (i : nat) (r : Rec.t) :
  NoDup (Rec.id <$> l) → l !! i = Some r → find_by_id (Rec.id r) l = Some (i, r).
Proof.
  intros Hnd Hi. unfold find_by_id. apply list_find_Some.
  split_and!; [done..|]. intros j x Hj Hlt Heq.
  assert (j = i) as ->; [|lia].
  eapply NoDup_lookup; [done|..]; rewrite list_lookup_fmap.
  - by rewrite Hj; simpl; rewrite Heq.
  - by rewrite Hi.
Qed.

Lemma find_by_id_split (s : string) (l : list Rec.t) (i : nat) (r : Rec.t) :
  find_by_id s l = Some (i, r) →
  ∃ l1 l2, l = l1 ++ r :: l2 ∧ length l1 = i ∧ delete i l = l1 ++ l2 ∧
           s ∉ Rec.id <$> l1.
Proof.
  intros (Hi & Hid & Hleast)%find_by_id_Some.
  exists (take i l), (drop (S i) l).
  assert (i < length l)%nat as Hlt by by eapply lookup_lt_Some.
  split_and!.
  - by rewrite <-(take_drop_middle l i r) at 1.
  - rewrite length_take. lia.
  - apply delete_take_drop.
  - intros (x & Hx & Hin)%list_elem_of_fmap.
    apply list_elem_of_lookup in Hin as [j Hj].
    apply lookup_take_Some in Hj as [Hj ?]. by eapply Hleast.
Qed.

(** ** What each resolver does to the store *)

(** Unfolds the monad and the store primitives. *)
Ltac step_js :=
  cbv [bind ret throw get_recordsData set_recordsData nextId_post_incr
       push splice1 write_rec call_trim toISOString] in *;
  simpl in *.

Section Effects.
Context `{DateEngine}.
Implicit Types (st : Store) (l : list Rec.t) (r : Rec.t).
Implicit Types (id name disease dateAdded : value).

Lemma records_spec st : records st = (Return (recordsData st), st).
Proof. done. Qed.

Lemma record_spec id st :
  record id st = (Return (snd <$> find_by_id (ToString id) (recordsData st)), st).
Proof. done. Qed.

Lemma deleteRecord_absent id st :
  find_by_id (ToString id) (recordsData st) = None →
  deleteRecord id st =
    (Return {| success := false;
               message := "Record with id " +:+ ToString id +:+ " not found.";
               removed := None |}, st).
Proof. intros Hfind. unfold deleteRecord. step_js. by rewrite Hfind. Qed.

Lemma deleteRecord_present id st i r :
  find_by_id (ToString id) (recordsData st) = Some (i, r) →
  deleteRecord id st =
    (Return {| success := true;
               message := "Record " +:+ ToString id +:+ " deleted successfully.";
               removed := Some r |},
     {| recordsData := delete i (recordsData st); nextId := nextId st |}).
Proof.
  intros Hfind. unfold deleteRecord. step_js. rewrite Hfind. simpl.
  rewrite head_drop, <-delete_take_drop.
  by apply find_by_id_Some in Hfind as (-> & _).
Qed.

(** [addRecord] either throws with the store untouched, or appends one
    record whose id is the decimal form of the counter and advances the
    counter by one. *)
Lemma addRecord_effect now name disease dateAdded st :
  (∃ e, addRecord now name disease dateAdded st = (Throw e, st)) ∨
  (∃ r, addRecord now name disease dateAdded st =
          (Return r, {| recordsData := recordsData st ++ [r];
                        nextId := nextId st + 1 |})
        ∧ Rec.id r = ToString (VNum (nextId st))).
Proof.
  unfold addRecord. step_js.
  destruct name as [| |[]|n|s]; simpl; eauto;
    try (destruct (n =? 0); simpl; by eauto).
  destruct (negb (String.eqb s "")); simpl; [|by eauto].
  destruct (negb (String.eqb (trim s) "")); simpl; [|by eauto].
  destruct (includes DISEASES disease) as [d|]; simpl; [|by eauto].
  destruct (truthy dateAdded && isValidDate dateAdded); simpl; [|by eauto].
  destruct (new_Date dateAdded); simpl; by eauto.
Qed.

Lemma put_put i r r' st : put i r' (put i r st) = put i r' st.
Proof. unfold put. simpl. by rewrite list_insert_insert_eq. Qed.

Lemma put_id i r st : recordsData st !! i = Some r → put i r st = st.
Proof. intros Hi. unfold put. rewrite list_insert_id by done. apply Store_eta. Qed.

Lemma update_name_spec i name r st :
  update_name i name r st =
    match name with
    | VStr s =>
        if decide (trim s = "")
        then (Throw (Error "Name cannot be empty."), st)
        else (Return (Rec.set_name (trim s) r), put i (Rec.set_name (trim s) r) st)
    | _ => (Return r, st)
    end.
Proof.
  destruct name as [| | | |s]; try done. unfold update_name. simpl.
  case_decide as Hs.
  - by rewrite Hs.
  - by apply String.eqb_neq in Hs as ->.
Qed.

Lemma update_disease_spec i disease r st :
  update_disease i disease r st =
    match disease with
    | VStr d =>
        if decide (d ∈ DISEASES)
        then (Return (Rec.set_disease d r), put i (Rec.set_disease d r) st)
        else (Throw (Error "Disease must be one of: Bulging_Eyes, Cataracts, Crossed_Eyes, Glaucoma, Uveitis"), st)
    | _ => (Return r, st)
    end.
Proof.
  destruct disease as [| | | |d]; try done. unfold update_disease, includes.
  rewrite bool_decide_decide. by case_decide.
Qed.

Lemma isValidDate_string t :
  isValidDate (VStr t) = true ↔ t ≠ "" ∧ is_Some (Date_parse t).
Proof.
  unfold isValidDate. simpl. destruct (String.eqb_spec t "") as [->|Hne]; simpl.
  - split; [done|]. by intros [? _].
  - destruct (Date_parse t) as [tv|]; simpl.
    + split; [by eauto|done].
    + split; [done|]. by intros [_ [? ?]].
Qed.

Lemma update_dateAdded_spec i dateAdded r st :
  update_dateAdded i dateAdded r st =
    match dateAdded with
    | VStr t =>
        match Date_parse t with
        | Some tv =>
            if decide (t = "")
            then (Throw (Error "dateAdded must be a valid ISO date/time."), st)
            else (Return (Rec.set_dateAdded (Date_toISOString tv) r),
                  put i (Rec.set_dateAdded (Date_toISOString tv) r) st)
        | None => (Throw (Error "dateAdded must be a valid ISO date/time."), st)
        end
    | _ => (Return r, st)
    end.
Proof.
  destruct dateAdded as [| | | |t]; try done. unfold update_dateAdded.
  destruct (isValidDate (VStr t)) eqn:Hvalid; simpl.
  - apply isValidDate_string in Hvalid as [Hne [tv Htv]].
    rewrite Htv. step_js. by case_decide.
  - destruct (Date_parse t) as [tv|] eqn:Htv; [|done].
    case_decide as Ht; [done|].
    assert (isValidDate (VStr t) = true) as Hv; [|congruence].
    apply isValidDate_string. by eauto.
Qed.

Lemma updateRecord_absent id name disease dateAdded st :
  find_by_id (ToString id) (recordsData st) = None →
  updateRecord id name disease dateAdded st =
    (Throw (Error ("Record with id " +:+ ToString id +:+ " not found.")), st).
Proof. intros Hfind. unfold updateRecord. step_js. by rewrite Hfind. Qed.

Lemma updateRecord_found id name disease dateAdded st i r :
  find_by_id (ToString id) (recordsData st) = Some (i, r) →
  updateRecord id name disease dateAdded st =
    (let! rec := update_name i name r in
     let! rec := update_disease i disease rec in
     let! rec := update_dateAdded i dateAdded rec in
     ret rec) st.
Proof. intros Hfind. unfold updateRecord. cbv [bind get_recordsData]. by rewrite Hfind. Qed.

End Effects.

(** Case analysis on the three optional arguments of [updateRecord]. *)
Ltac update_cases name disease dateAdded :=
  cbv [bind ret]; rewrite update_name_spec;
  destruct name; repeat case_decide; simpl;
  rewrite ?update_disease_spec;
  destruct disease; repeat case_decide; simpl;
  rewrite ?update_dateAdded_spec;
  destruct dateAdded; simpl;
  try (destruct (Date_parse _) eqn:?; [case_decide|]); simpl.

Section Frame.
Context `{DateEngine}.
Implicit Types (st : Store) (l : list Rec.t) (r : Rec.t).
Implicit Types (id name disease dateAdded : value).

(** Whatever [updateRecord] answers, the store differs from the one before
    at most in the record found, which keeps its id and every field whose
    argument is not a string; a returned record is the stored one, and a
    throw leaves [dateAdded], the last field written, as it was. *)
Lemma updateRecord_frame id name disease dateAdded st i r :
  find_by_id (ToString id) (recordsData st) = Some (i, r) →
  ∃ c r', updateRecord id name disease dateAdded st = (c, put i r' st)
    ∧ Rec.id r' = Rec.id r
    ∧ (is_string name = false → Rec.name r' = Rec.name r)
    ∧ (is_string disease = false → Rec.disease r' = Rec.disease r)
    ∧ (is_string dateAdded = false → Rec.dateAdded r' = Rec.dateAdded r)
    ∧ (∀ x, c = Return x → x = r')
    ∧ (∀ e, c = Throw e → Rec.dateAdded r' = Rec.dateAdded r).
Proof.
  intros Hfind. rewrite (updateRecord_found _ _ _ _ _ _ _ Hfind).
  apply find_by_id_Some in Hfind as (Hi & _ & _).
  update_cases name disease dateAdded; rewrite ?put_put;
    (eexists _, _; split;
       [reflexivity || (rewrite (put_id i r st Hi); reflexivity)|]);
    split_and!; try done; by intros ? [= <-].
Qed.
End Frame.

(** ** Invariant of the store and the ids handed out *)

Lemma seed_ids : Rec.id <$> seed_records = ToString ∘ VNum <$> seqZ 1 20.
Proof. reflexivity. Qed.

Lemma StronglySorted_seqZ (m n : Z) : StronglySorted Z.lt (seqZ m n).
Proof.
  remember (Z.to_nat n) as k eqn:Hk. revert m n Hk.
  induction k as [|k IH]; intros m n Hk.
  - rewrite seqZ_nil by lia. constructor.
  - rewrite seqZ_cons by lia. constructor.
    + apply IH. lia.
    + apply Forall_seqZ. lia.
Qed.

Global Instance ToString_VNum_inj : Inj (=) (=) (ToString ∘ VNum).
Proof. intros m n Heq. by apply (inj pretty). Qed.

Section Invariant.
Context `{DateEngine}.

Lemma store_inv_seed : store_inv seed.
Proof.
  split; change (recordsData seed) with seed_records.
  - rewrite seed_ids. apply (NoDup_fmap_2 _), NoDup_seqZ.
  - apply Forall_forall. intros r Hr.
    apply (list_elem_of_fmap_2 Rec.id) in Hr. rewrite seed_ids in Hr.
    apply list_elem_of_fmap in Hr as (n & -> & Hn%elem_of_seqZ).
    exists n. split; [done|]. simpl. lia.
Qed.

Lemma store_inv_put i r r' st :
  recordsData st !! i = Some r → Rec.id r' = Rec.id r →
  store_inv st → store_inv (put i r' st).
Proof.
  intros Hi Hid [Hnd Hall]. split; simpl.
  - rewrite list_fmap_insert, Hid, list_insert_id; [done|].
    by rewrite list_lookup_fmap, Hi.
  - apply Forall_insert; [done|]. rewrite Hid.
    by eapply Forall_lookup_1 in Hall.
Qed.

Lemma store_inv_exec c st : store_inv st → store_inv (exec c st).2.
Proof.
  intros Hinv. destruct c as [|id|now name disease dateAdded
                              |id name disease dateAdded|id]; simpl.
  - done.
  - done.
  - destruct (addRecord_effect now name disease dateAdded st)
      as [[e ->]|(r & -> & Hid)]; simpl; [done|].
    destruct Hinv as [Hnd Hall]. split; simpl.
    + rewrite fmap_app. apply NoDup_app. split_and!; [done| |apply NoDup_singleton].
      intros s (x & -> & Hx)%list_elem_of_fmap Heq%list_elem_of_singleton.
      eapply list.Forall_forall in Hall as (n & Hn & ?); [|done].
      rewrite Heq, Hid in Hn. apply (inj (ToString ∘ VNum)) in Hn. lia.
    + apply Forall_app. split.
      * eapply Forall_impl; [done|]. simpl. intros x (n & ? & ?).
        exists n. split; [done|lia].
      * apply Forall_singleton. exists (nextId st). split; [done|lia].
  - destruct (find_by_id (ToString id) (recordsData st)) as [[i r]|] eqn:Hfind.
    + destruct (updateRecord_frame id name disease dateAdded st i r Hfind)
        as (c & r' & -> & Hid & _). simpl.
      apply find_by_id_Some in Hfind as (Hi & _). by eapply store_inv_put.
    + by rewrite updateRecord_absent.
  - destruct (find_by_id (ToString id) (recordsData st)) as [[i r]|] eqn:Hfind.
    + rewrite (deleteRecord_present _ _ _ _ Hfind). simpl.
      destruct Hinv as [Hnd Hall]. split; simpl.
      * rewrite list_fmap_delete. eapply sublist_NoDup; [done|apply sublist_delete].
      * by apply Forall_delete.
    + by rewrite deleteRecord_absent.
Qed.

Lemma reachable_inv st : reachable st → store_inv st.
Proof. induction 1; [apply store_inv_seed|by apply store_inv_exec]. Qed.

(** A call hands out either no id and leaves the counter alone, or the
    decimal form of the counter, which it then advances by one. *)
Lemma exec_assigned c st :
  (assigned_id (exec c st).1 = None ∧ nextId (exec c st).2 = nextId st) ∨
  (assigned_id (exec c st).1 = Some (ToString (VNum (nextId st)))
   ∧ nextId (exec c st).2 = nextId st + 1).
Proof.
  destruct c as [|id|now name disease dateAdded
                 |id name disease dateAdded|id]; simpl; [by left..| | |].
  - destruct (addRecord_effect now name disease dateAdded st)
      as [[e ->]|(r & -> & Hid)]; simpl; [by left|right]. by rewrite Hid.
  - left. destruct (find_by_id (ToString id) (recordsData st)) as [[i r]|] eqn:Hfind.
    + by destruct (updateRecord_frame id name disease dateAdded st i r Hfind)
        as (c & r' & -> & _).
    + by rewrite updateRecord_absent.
  - left. destruct (find_by_id (ToString id) (recordsData st)) as [[i r]|] eqn:Hfind.
    + by rewrite (deleteRecord_present _ _ _ _ Hfind).
    + by rewrite deleteRecord_absent.
Qed.

Lemma run_assigned cs st :
  let ids := assigned_ids (run cs st).1 in
  ids = ToString ∘ VNum <$> seqZ (nextId st) (Z.of_nat (length ids)).
Proof.
  revert st. induction cs as [|c cs IH]; intros st; simpl; [done|].
  pose proof (exec_assigned c st) as Hc.
  destruct (exec c st) as [r st'] eqn:Hexec. specialize (IH st').
  destruct (run cs st') as [rs st''] eqn:Hrun. simpl in *.
  unfold assigned_ids in *. simpl.
  destruct Hc as [[-> Hn]|[-> Hn]]; simpl.
  - by rewrite <-Hn.
  - rewrite seqZ_cons by lia. simpl. f_equal.
    rewrite Hn in IH. rewrite IH at 1. do 2 f_equal; lia.
Qed.

(** The counter after a run has advanced by the number of ids handed out. *)
Lemma run_nextId cs st :
  nextId (run cs st).2 =
    nextId st + Z.of_nat (length (assigned_ids (run cs st).1)).
Proof.
  revert st. induction cs as [|c cs IH]; intros st; simpl; [lia|].
  pose proof (exec_assigned c st) as Hc.
  destruct (exec c st) as [r st'] eqn:Hexec. specialize (IH st').
  destruct (run cs st') as [rs st''] eqn:Hrun. simpl in *.
  unfold assigned_ids in *. simpl.
  destruct Hc as [[-> Hn]|[-> Hn]]; simpl; lia.
Qed.
End Invariant.

Section Claims.
Context `{DateEngine}.
Implicit Types (st : Store) (l : list Rec.t) (r : Rec.t).
Implicit Types (id name disease dateAdded : value).

Lemma addRecord_valid now s d dateAdded st :
  trim s ≠ "" → d ∈ DISEASES → optional_string dateAdded →
  let r := Rec.mk (ToString (VNum (nextId st))) (trim s) d
                  (date_or_now now dateAdded) in
  addRecord now (VStr s) (VStr d) dateAdded st =
    (Return r, {| recordsData := recordsData st ++ [r];
                  nextId := nextId st + 1 |}).
Proof.
  intros Hs Hd Hopt. unfold addRecord, includes. step_js.
  apply String.eqb_neq in Hs as Hs'. rewrite Hs'.
  assert (String.eqb s "" = false) as ->.
  { apply String.eqb_neq. by intros ->. }
  simpl. rewrite bool_decide_true by done.
  destruct dateAdded as [| | | |t]; try done. simpl.
  destruct (isValidDate (VStr t)) eqn:Hvalid.
  - apply isValidDate_string in Hvalid as [Hne [tv Htv]].
    rewrite Htv, decide_False by done.
    by apply String.eqb_neq in Hne as ->.
  - rewrite andb_false_r. simpl.
    destruct (Date_parse t) as [tv|] eqn:Htv; [|done].
    case_decide as Ht; [done|].
    assert (isValidDate (VStr t) = true) as Hv; [|congruence].
    apply isValidDate_string. by eauto.
Qed.

Lemma put_changes_name i r x st :
  recordsData st !! i = Some r → x ≠ Rec.name r → put i (Rec.set_name x r) st ≠ st.
Proof.
  intros Hi Hx Heq. apply (f_equal (λ s, recordsData s !! i)) in Heq.
  simpl in Heq. rewrite Hi, list_lookup_insert_eq in Heq
    by by eapply lookup_lt_Some.
  injection Heq as Heq. apply Hx. by rewrite <-Heq.
Qed.

(** A throw of [updateRecord] that comes after the name was written: the
    store is no longer the one before the call. *)
Lemma updateRecord_throws_after_name_write id s disease dateAdded st i r :
  find_by_id (ToString id) (recordsData st) = Some (i, r) →
  trim s ≠ "" → trim s ≠ Rec.name r →
  (∃ d, disease = VStr d ∧ d ∉ DISEASES)
  ∨ (is_string disease = false ∧ ∃ t, dateAdded = VStr t ∧ Date_parse t = None) →
  ∃ e, updateRecord id (VStr s) disease dateAdded st =
         (Throw e, put i (Rec.set_name (trim s) r) st)
       ∧ put i (Rec.set_name (trim s) r) st ≠ st.
Proof.
  intros Hfind Hs Hname Hbad.
  rewrite (updateRecord_found _ _ _ _ _ _ _ Hfind). cbv [bind].
  rewrite update_name_spec, decide_False by done.
  rewrite update_disease_spec.
  assert (put i (Rec.set_name (trim s) r) st ≠ st) as Hne.
  { apply find_by_id_Some in Hfind as (Hi & _). by apply put_changes_name. }
  destruct Hbad as [(d & -> & Hd)|(Hdis & t & -> & Ht)].
  - rewrite decide_False by done. by eauto.
  - destruct disease; try done; cbv beta iota;
      rewrite update_dateAdded_spec, Ht; by eauto.
Qed.

Lemma deleteRecord_returns id st : ∃ res st', deleteRecord id st = (Return res, st').
Proof.
  destruct (find_by_id (ToString id) (recordsData st)) as [[i r]|] eqn:Hfind.
  - rewrite (deleteRecord_present _ _ _ _ Hfind). by eauto.
  - rewrite deleteRecord_absent by done. by eauto.
Qed.

(** C1 (as amended). A resolver that throws: [addRecord] leaves the store
    exactly as it was and [deleteRecord] never throws; [updateRecord] leaves
    the id counter, the number, order and ids of the records and every
    record with another id as they were, the record it addresses keeps its
    id, its [dateAdded] and every field that was not supplied, and the whole
    store is as it was when the id is not found, when the supplied name is
    blank, or when no name is supplied and either the disease is rejected or
    no disease is supplied. *)
Theorem throwing_resolver_frame now id name disease dateAdded st e st' :
  (addRecord now name disease dateAdded st = (Throw e, st') → st' = st)
  ∧ deleteRecord id st ≠ (Throw e, st')
  ∧ (updateRecord id name disease dateAdded st = (Throw e, st') →
       nextId st' = nextId st
       ∧ length (recordsData st') = length (recordsData st)
       ∧ Rec.id <$> recordsData st' = Rec.id <$> recordsData st
       ∧ (∀ j r, recordsData st !! j = Some r → Rec.id r ≠ ToString id →
             recordsData st' !! j = Some r)
       ∧ (∀ i r, find_by_id (ToString id) (recordsData st) = Some (i, r) →
             ∃ r', recordsData st' !! i = Some r'
               ∧ Rec.id r' = Rec.id r
               ∧ Rec.dateAdded r' = Rec.dateAdded r
               ∧ (is_string name = false → Rec.name r' = Rec.name r)
               ∧ (is_string disease = false → Rec.disease r' = Rec.disease r))
       ∧ (ToString id ∉ Rec.id <$> recordsData st
          ∨ (∃ s, name = VStr s ∧ trim s = "")
          ∨ (is_string name = false
             ∧ (is_string disease = false ∨ ∃ d, disease = VStr d ∧ d ∉ DISEASES)) →
          st' = st)).
Proof.
  split_and!.
  - destruct (addRecord_effect now name disease dateAdded st)
      as [[e' ->]|(r & -> & _)]; [|done]. by intros [= _ <-].
  - destruct (deleteRecord_returns id st) as (res & st'' & ->). done.
  - destruct (find_by_id (ToString id) (recordsData st)) as [[i r]|] eqn:Hfind;
      [|rewrite updateRecord_absent by done; by intros [= _ <-]].
    pose proof Hfind as (Hi & Hid & _)%find_by_id_Some.
    destruct (updateRecord_frame id name disease dateAdded st i r Hfind)
      as (c & r' & Heq & Hid' & Hn & Hd & _ & _ & Hda).
    intros Hthrow. split_and!.
    + rewrite Heq in Hthrow. by injection Hthrow as _ <-.
    + rewrite Heq in Hthrow. injection Hthrow as _ <-. apply length_insert.
    + rewrite Heq in Hthrow. injection Hthrow as _ <-. simpl.
      rewrite list_fmap_insert, Hid', list_insert_id; [done|].
      by rewrite list_lookup_fmap, Hi.
    + intros j x Hj Hx. rewrite Heq in Hthrow. injection Hthrow as _ <-. simpl.
      rewrite list_lookup_insert_ne; [done|]. intros <-. congruence.
    + intros ? ? [= <- <-]. rewrite Heq in Hthrow. injection Hthrow as -> <-.
      exists r'. simpl. split_and!; [|done|by eapply Hda|done..].
      apply list_lookup_insert_eq. by eapply lookup_lt_Some.
    + rewrite (updateRecord_found _ _ _ _ _ _ _ Hfind) in Hthrow.
      revert Hthrow. cbv [bind ret]. rewrite update_name_spec.
      intros Hthrow [Hno|[(s & -> & Hs)|[Hname Hdis]]].
      * apply find_by_id_None in Hno. congruence.
      * rewrite decide_True in Hthrow by done. by injection Hthrow as _ <-.
      * destruct name; try done; cbv beta iota in Hthrow;
          rewrite update_disease_spec in Hthrow;
          (destruct Hdis as [Hdis|(d & -> & Hd')];
             [destruct disease; try done; cbv beta iota in Hthrow;
              rewrite update_dateAdded_spec in Hthrow;
              destruct dateAdded; try done;
              (destruct (Date_parse _); [case_decide|]);
              congruence
             |rewrite decide_False in Hthrow by done; congruence]).
Qed.


(** C3. In every run from the seed, the ids handed out by the successful
    [addRecord] calls are, in order, "21", "22", ...: the first is "21", they
    are distinct from each other and from the twenty seed ids whatever was
    deleted in between, and seed ids followed by assigned ids are the decimal
    forms of a strictly increasing sequence of numbers. Ids are handed out:
    on the seed an [addRecord] with an acceptable name and disease returns
    the record with id "21", and after any run it returns a record whose id
    is the next number, an id that neither a seed record nor an earlier
    [addRecord] had. *)
Theorem assigned_ids_fresh_and_increasing (cs : list call) :
  let ids := assigned_ids (run cs seed).1 in
  ids = ToString ∘ VNum <$> seqZ 21 (Z.of_nat (length ids))
  ∧ (ids = [] ∨ head ids = Some "21")
  ∧ NoDup ((Rec.id <$> seed_records) ++ ids)
  ∧ (∃ ns, (Rec.id <$> seed_records) ++ ids = ToString ∘ VNum <$> ns
           ∧ StronglySorted Z.lt ns)
  ∧ (∀ now s d dateAdded,
       trim s ≠ "" → d ∈ DISEASES → optional_string dateAdded →
       ∃ r st', addRecord now (VStr s) (VStr d) dateAdded seed = (Return r, st')
                ∧ Rec.id r = "21")
  ∧ (∀ now s d dateAdded,
       trim s ≠ "" → d ∈ DISEASES → optional_string dateAdded →
       ∃ r st',
         addRecord now (VStr s) (VStr d) dateAdded (run cs seed).2 = (Return r, st')
         ∧ Rec.id r = ToString (VNum (21 + Z.of_nat (length ids)))
         ∧ (Rec.id r ∉ (Rec.id <$> seed_records) ++ ids)
         ∧ nextId st' = 21 + Z.of_nat (length ids) + 1).
Proof.
  intros ids. pose proof (run_assigned cs seed) as Hids.
  pose proof (run_nextId cs seed) as Hnext.
  cbv zeta in Hids. fold ids in Hids, Hnext.
  change (nextId seed) with 21 in Hids, Hnext. clearbody ids.
  assert ((Rec.id <$> seed_records) ++ ids =
          ToString ∘ VNum <$> seqZ 1 (20 + Z.of_nat (length ids))) as Hall.
  { rewrite seqZ_app, fmap_app, <-seed_ids by lia. by rewrite Hids at 1. }
  split_and!.
  - done.
  - destruct ids as [|x ids']; [by left|right].
    rewrite seqZ_cons in Hids by (simpl; lia). by injection Hids as -> _.
  - rewrite Hall. apply (NoDup_fmap_2 _), NoDup_seqZ.
  - eexists. split; [done|]. apply StronglySorted_seqZ.
  - intros now s d dateAdded Hs Hd Hopt.
    rewrite addRecord_valid by done. by eauto.
  - intros now s d dateAdded Hs Hd Hopt.
    rewrite addRecord_valid by done. rewrite Hnext.
    eexists _, _. split; [done|]. cbn [Rec.id nextId]. split_and!; [done| |done].
    rewrite Hall.
    intros (n & Heq & Hn%elem_of_seqZ)%list_elem_of_fmap.
    apply (inj (ToString ∘ VNum)) in Heq. lia.
Qed.

(** C4. For an id that no stored record has, [deleteRecord] returns (it
    does not throw) [success = false], the message
    "Record with id <id> not found." and [removed = null], and the store is
    unchanged. *)
Theorem deleteRecord_not_found id st :
  ToString id ∉ Rec.id <$> recordsData st →
  deleteRecord id st =
    (Return {| success := false;
               message := "Record with id " +:+ ToString id +:+ " not found.";
               removed := None |}, st).
Proof. intros Hid. by apply deleteRecord_absent, find_by_id_None. Qed.

(** C5. For an id that a stored record has, [deleteRecord] returns
    [success = true] with that record attached and removes exactly it: the
    other records stay, in their order, the collection is one shorter, and
    a later [records()] neither contains the record nor any record with
    that id. *)
Theorem deleteRecord_removes_record id st :
  reachable st → ToString id ∈ Rec.id <$> recordsData st →
  ∃ l1 r l2,
    recordsData st = l1 ++ r :: l2
    ∧ Rec.id r = ToString id
    ∧ deleteRecord id st =
        (Return {| success := true;
                   message := "Record " +:+ ToString id +:+ " deleted successfully.";
                   removed := Some r |},
         {| recordsData := l1 ++ l2; nextId := nextId st |})
    ∧ (r ∉ l1 ++ l2)
    ∧ (ToString id ∉ Rec.id <$> (l1 ++ l2))
    ∧ S (length (l1 ++ l2)) = length (recordsData st)
    ∧ (records (deleteRecord id st).2).1 = Return (l1 ++ l2).
Proof.
  intros [Hnd _]%reachable_inv (i & r & Hfind)%find_by_id_elem_of.
  destruct (find_by_id_split _ _ _ _ Hfind) as (l1 & l2 & Hl & Hlen & Hdel & _).
  pose proof Hfind as (_ & Hid & _)%find_by_id_Some.
  rewrite (deleteRecord_present _ _ _ _ Hfind), Hdel.
  assert (ToString id ∉ Rec.id <$> (l1 ++ l2)) as Hgone.
  { rewrite Hl, fmap_app, fmap_cons, Hid in Hnd.
    apply NoDup_app in Hnd as (_ & Hl1 & [Hl2 _]%NoDup_cons).
    rewrite fmap_app, elem_of_app. intros [?|?]; [|done].
    apply (Hl1 (ToString id)); [done|]. apply list_elem_of_here. }
  exists l1, r, l2. split_and!; try done.
  - intros Hr. apply Hgone. rewrite <-Hid. by apply list_elem_of_fmap_2.
  - rewrite Hl, !length_app. simpl. lia.
Qed.

(** C6. For a stored record, [updateRecord] on its id: with no optional
    field it returns the record and leaves the store as it was; with only a
    name (not blank) it overwrites the name with the trimmed name and
    nothing else; and whatever the arguments, the record keeps its id and
    every field whose argument is not supplied. *)
Theorem updateRecord_changes_only_supplied_fields st r :
  reachable st → r ∈ recordsData st →
  updateRecord (VStr (Rec.id r)) VUndefined VUndefined VUndefined st = (Return r, st)
  ∧ (∀ s, trim s ≠ "" →
       ∃ i, recordsData st !! i = Some r
         ∧ updateRecord (VStr (Rec.id r)) (VStr s) VUndefined VUndefined st =
             (Return (Rec.mk (Rec.id r) (trim s) (Rec.disease r) (Rec.dateAdded r)),
              put i (Rec.mk (Rec.id r) (trim s) (Rec.disease r) (Rec.dateAdded r)) st))
  ∧ (∀ name disease dateAdded,
       ∃ c i r', recordsData st !! i = Some r
         ∧ updateRecord (VStr (Rec.id r)) name disease dateAdded st = (c, put i r' st)
         ∧ (∀ x, c = Return x → x = r')
         ∧ Rec.id r' = Rec.id r
         ∧ (is_string name = false → Rec.name r' = Rec.name r)
         ∧ (is_string disease = false → Rec.disease r' = Rec.disease r)
         ∧ (is_string dateAdded = false → Rec.dateAdded r' = Rec.dateAdded r)).
Proof.
  intros [Hnd _]%reachable_inv [i Hi]%list_elem_of_lookup.
  pose proof (find_by_id_NoDup _ _ _ Hnd Hi) as Hfind.
  split_and!.
  - by rewrite (updateRecord_found (VStr (Rec.id r)) _ _ _ _ _ _ Hfind).
  - intros s Hs. exists i. split; [done|].
    rewrite (updateRecord_found (VStr (Rec.id r)) _ _ _ _ _ _ Hfind).
    cbv [bind]. rewrite update_name_spec. by rewrite decide_False by done.
  - intros name disease dateAdded.
    destruct (updateRecord_frame (VStr (Rec.id r)) name disease dateAdded st i r Hfind)
      as (c & r' & Heq & Hid & Hn & Hd & Hda & Hret & _).
    by exists c, i, r'.
Qed.

Lemma update_rejected_dec id name disease dateAdded st :
  Decision (update_rejected id name disease dateAdded st).
Proof.
  unfold update_rejected. repeat apply or_dec.
  - apply _.
  - destruct name as [| | | |s]; try (right; by intros (? & [=] & _)).
    destruct (decide (trim s = "")); [left; by eauto|right].
    by intros (? & [= <-] & ?).
  - destruct disease as [| | | |d]; try (right; by intros (? & [=] & _)).
    destruct (decide (d ∈ DISEASES)); [right|left; by eauto].
    by intros (? & [= <-] & ?).
  - destruct dateAdded as [| | | |t]; try (right; by intros (? & [=] & _)).
    destruct (Date_parse t) as [tv|] eqn:Ht; [right|left; by eauto].
    intros (? & [= <-] & ?). congruence.
Qed.

Lemma updateRecord_rejects id name disease dateAdded st :
  update_rejected id name disease dateAdded st →
  ∃ e, (updateRecord id name disease dateAdded st).1 = Throw e.
Proof.
  intros Hbad.
  destruct (find_by_id (ToString id) (recordsData st)) as [[i r]|] eqn:Hfind;
    [|rewrite updateRecord_absent by done; by eauto].
  rewrite (updateRecord_found _ _ _ _ _ _ _ Hfind). cbv [bind].
  destruct Hbad as [Hid|[(s & -> & Hs)|Hbad]].
  { apply find_by_id_None in Hid. congruence. }
  { rewrite update_name_spec, decide_True by done. by eauto. }
  destruct (update_name i name r st) as [[r1|e1] st1]; [|by eauto].
  destruct Hbad as [(d & -> & Hd)|(t & -> & Ht)].
  { rewrite update_disease_spec, decide_False by done. by eauto. }
  destruct (update_disease i disease r1 st1) as [[r2|e2] st2]; [|by eauto].
  rewrite update_dateAdded_spec, Ht. by eauto.
Qed.

Lemma updateRecord_accepts id name disease dateAdded st i r :
  Date_parse "" = None →
  find_by_id (ToString id) (recordsData st) = Some (i, r) →
  ¬ update_rejected id name disease dateAdded st →
  updateRecord id name disease dateAdded st =
    (Return (updated name disease dateAdded r),
     put i (updated name disease dateAdded r) st).
Proof.
  intros Hempty Hfind Hok.
  assert (∀ s, name = VStr s → trim s ≠ "") as Hname.
  { intros s -> Hs. apply Hok. right; left. by eauto. }
  assert (∀ d, disease = VStr d → d ∈ DISEASES) as Hdisease.
  { intros d ->. destruct (decide (d ∈ DISEASES)); [done|].
    destruct Hok. right; right; left. by eauto. }
  assert (∀ t, dateAdded = VStr t → t ≠ "" ∧ is_Some (Date_parse t)) as Hdate.
  { intros t ->. destruct (Date_parse t) as [tv|] eqn:Ht.
    - split; [|by eauto]. intros ->. congruence.
    - destruct Hok. right; right; right. by eauto. }
  pose proof Hfind as (Hi & _)%find_by_id_Some.
  rewrite (updateRecord_found _ _ _ _ _ _ _ Hfind). cbv [bind ret].
  rewrite update_name_spec.
  destruct name as [| | | |s];
    [..|rewrite decide_False by by apply Hname];
    cbv beta iota; rewrite update_disease_spec;
    (destruct disease as [| | | |d];
       [..|rewrite decide_True by by apply Hdisease]);
    cbv beta iota; rewrite update_dateAdded_spec;
    (destruct dateAdded as [| | | |t];
       [..|destruct (Hdate t eq_refl) as [Ht [tv Htv]];
           rewrite Htv, decide_False by done]);
    unfold updated; rewrite ?Htv, ?put_put; cbv beta iota zeta;
    reflexivity || by rewrite put_id.
Qed.

(** C7. [updateRecord] throws exactly when the id matches no stored
    record, or a supplied name trims to the empty string, or a supplied
    disease is not one of the five, or a supplied [dateAdded] does not
    parse; otherwise it returns the record with every supplied field
    overwritten, which is also the stored one. The engine is assumed to
    answer [NaN] on the empty string, as every engine does. *)
Theorem updateRecord_fails_exactly_when_rejected id name disease dateAdded st :
  Date_parse "" = None →
  ((∃ e, (updateRecord id name disease dateAdded st).1 = Throw e)
     ↔ update_rejected id name disease dateAdded st)
  ∧ (¬ update_rejected id name disease dateAdded st →
       ∃ i r, recordsData st !! i = Some r ∧ Rec.id r = ToString id
         ∧ updateRecord id name disease dateAdded st =
             (Return (updated name disease dateAdded r),
              put i (updated name disease dateAdded r) st)).
Proof.
  intros Hempty.
  assert (¬ update_rejected id name disease dateAdded st →
          ∃ i r, find_by_id (ToString id) (recordsData st) = Some (i, r))
    as Hfound.
  { intros Hok. apply find_by_id_elem_of.
    destruct (decide (ToString id ∈ Rec.id <$> recordsData st)); [done|].
    destruct Hok. by left. }
  split.
  - split; [|apply updateRecord_rejects].
    intros [e He].
    destruct (update_rejected_dec id name disease dateAdded st) as [|Hok]; [done|].
    destruct (Hfound Hok) as (i & r & Hfind).
    by rewrite (updateRecord_accepts _ _ _ _ _ _ _ Hempty Hfind Hok) in He.
  - intros Hok. destruct (Hfound Hok) as (i & r & Hfind).
    exists i, r. pose proof Hfind as (Hi & Hid & _)%find_by_id_Some.
    split_and!; [done..|]. by apply updateRecord_accepts.
Qed.

(** C8. [addRecord] throws "Name is required." when the name is absent
    or trims to the empty string; it throws when the disease is not one of
    the five, and the error then lists the five values (the name is checked
    first, so this is the error when the name is acceptable); with an
    acceptable name and disease it appends a record whose name is the
    trimmed name. *)
Theorem addRecord_validates_name_and_disease now name disease dateAdded st :
  ((name = VUndefined ∨ name = VNull ∨ ∃ s, name = VStr s ∧ trim s = "") →
     addRecord now name disease dateAdded st =
       (Throw (Error "Name is required."), st))
  ∧ ((∀ d, disease = VStr d → d ∉ DISEASES) →
       (∃ e, addRecord now name disease dateAdded st = (Throw e, st))
       ∧ (∀ s, name = VStr s → trim s ≠ "" →
            addRecord now name disease dateAdded st =
              (Throw (Error "Disease must be one of: Bulging_Eyes, Cataracts, Crossed_Eyes, Glaucoma, Uveitis"),
               st)))
  ∧ (∀ s d, name = VStr s → trim s ≠ "" → disease = VStr d → d ∈ DISEASES →
       optional_string dateAdded →
       let r := Rec.mk (ToString (VNum (nextId st))) (trim s) d
                       (date_or_now now dateAdded) in
       addRecord now name disease dateAdded st =
         (Return r, {| recordsData := recordsData st ++ [r];
                       nextId := nextId st + 1 |})).
Proof.
  assert (∀ s, truthy (VStr s) = false → trim s = "") as Hblank.
  { intros s Hs. simpl in Hs. apply negb_false_iff, String.eqb_eq in Hs.
    by subst. }
  split_and!.
  - intros [->|[->|(s & -> & Hs)]]; [done..|].
    unfold addRecord. step_js. rewrite Hs.
    by destruct (negb (String.eqb s "")).
  - intros Hd.
    assert (includes DISEASES disease = None) as Hinc.
    { destruct disease as [| | | |d]; try done. unfold includes.
      by rewrite bool_decide_false by by apply Hd. }
    split.
    + destruct (addRecord_effect now name disease dateAdded st)
        as [?|(r & Heq & _)]; [done|].
      exfalso. revert Heq. unfold addRecord. step_js. rewrite Hinc.
      destruct name as [| |[]|n|s]; simpl; try done.
      * by destruct (n =? 0).
      * destruct (negb (String.eqb s "")); simpl; [|done].
        by destruct (negb (String.eqb (trim s) "")).
    + intros s -> Hs. unfold addRecord. step_js. rewrite Hinc.
      apply String.eqb_neq in Hs as Hs'. rewrite Hs'.
      destruct (String.eqb_spec s "") as [->|_]; [done|]. done.
  - intros s d -> Hs -> Hd Hopt. by apply addRecord_valid.
Qed.

(** C9. [record], [updateRecord] and [deleteRecord] treat an id like its
    string form, so the number [n] addresses the record whose id is the
    decimal form of [n]; [record] always returns, with [null] exactly when
    no stored record has the id. *)
Theorem id_is_compared_as_string id st :
  record id st = record (VStr (ToString id)) st
  ∧ (∀ name disease dateAdded,
       updateRecord id name disease dateAdded st =
       updateRecord (VStr (ToString id)) name disease dateAdded st)
  ∧ deleteRecord id st = deleteRecord (VStr (ToString id)) st
  ∧ (∃ found, record id st = (Return found, st)
       ∧ (found = None ↔ ToString id ∉ Rec.id <$> recordsData st)
       ∧ (∀ r, found = Some r → r ∈ recordsData st ∧ Rec.id r = ToString id))
  ∧ (reachable st →
     ∀ n r, r ∈ recordsData st → Rec.id r = ToString (VNum n) →
       record (VNum n) st = (Return (Some r), st)
       ∧ updateRecord (VNum n) VUndefined VUndefined VUndefined st = (Return r, st)
       ∧ (deleteRecord (VNum n) st).1 =
           Return {| success := true;
                     message := "Record " +:+ ToString (VNum n) +:+ " deleted successfully.";
                     removed := Some r |}).
Proof.
  split_and!; try done.
  - exists (snd <$> find_by_id (ToString id) (recordsData st)).
    split_and!; [done| |].
    + rewrite <-find_by_id_None. by destruct (find_by_id _ _).
    + intros r Hr.
      destruct (find_by_id (ToString id) (recordsData st)) as [[i r']|] eqn:Hfind;
        [|done].
      injection Hr as ->.
      apply find_by_id_Some in Hfind as (Hi & Hid & _).
      split; [|done]. by eapply list_elem_of_lookup_2.
  - intros [Hnd _]%reachable_inv n r [i Hi]%list_elem_of_lookup Hid.
    pose proof (find_by_id_NoDup _ _ _ Hnd Hi) as Hfind. rewrite Hid in Hfind.
    split_and!.
    + by rewrite record_spec, Hfind.
    + by rewrite (updateRecord_found _ _ _ _ _ _ _ Hfind).
    + by rewrite (deleteRecord_present _ _ _ _ Hfind).
Qed.

Lemma update_name_supplied i name : update_name i (supplied name) = update_name i name.
Proof. by destruct name. Qed.
Lemma update_disease_supplied i disease :
  update_disease i (supplied disease) = update_disease i disease.
Proof. by destruct disease. Qed.
Lemma update_dateAdded_supplied i dateAdded :
  update_dateAdded i (supplied dateAdded) = update_dateAdded i dateAdded.
Proof. by destruct dateAdded. Qed.

(** C10. [updateRecord] reads an argument that is not a string ([null]
    included) like an omitted one: the outcome is the same, no such argument
    makes it throw, and the field it stands for is unchanged. *)
Theorem updateRecord_non_string_is_omitted id name disease dateAdded st :
  updateRecord id name disease dateAdded st =
    updateRecord id (supplied name) (supplied disease) (supplied dateAdded) st
  ∧ (∀ i r, find_by_id (ToString id) (recordsData st) = Some (i, r) →
       (is_string name = false → is_string disease = false →
        is_string dateAdded = false →
        updateRecord id name disease dateAdded st = (Return r, st))
       ∧ ∃ c r', updateRecord id name disease dateAdded st = (c, put i r' st)
           ∧ (is_string name = false → Rec.name r' = Rec.name r)
           ∧ (is_string disease = false → Rec.disease r' = Rec.disease r)
           ∧ (is_string dateAdded = false → Rec.dateAdded r' = Rec.dateAdded r)).
Proof.
  split.
  - destruct (find_by_id (ToString id) (recordsData st)) as [[i r]|] eqn:Hfind.
    + rewrite !(updateRecord_found _ _ _ _ _ _ _ Hfind).
      by rewrite update_name_supplied, update_disease_supplied,
        update_dateAdded_supplied.
    + by rewrite !updateRecord_absent.
  - intros i r Hfind. split.
    + intros Hn Hd Hda. rewrite (updateRecord_found _ _ _ _ _ _ _ Hfind).
      by destruct name, disease, dateAdded.
    + destruct (updateRecord_frame id name disease dateAdded st i r Hfind)
        as (c & r' & Heq & _ & Hn & Hd & Hda & _).
      by exists c, r'.
Qed.

End Claims.

(** C1 as the specification states it does not hold: on the seed,
    [updateRecord(id: "5", name: "Zed", dateAdded: "not-a-date")] throws
    after the name of record 5 has been overwritten. *)
Lemma updateRecord_throw_changes_store :
  ¬ ∀ (E : DateEngine) id name disease dateAdded st e st',
      @updateRecord E id name disease dateAdded st = (Throw e, st') → st' = st.
Proof.
  intros Hclaim.
  destruct (@updateRecord_throws_after_name_write iso_engine
              (VStr "5") "Zed" VUndefined (VStr "not-a-date") seed 4
              (Rec.mk "5" "Neha" "Bulging_Eyes" "2025-01-09T12:30:00.000Z"))
    as (e & Heq & Hne); [reflexivity|by vm_compute..| |].
  - right. split; [done|]. by exists "not-a-date".
  - apply Hne. eapply Hclaim. exact Heq.
Qed.

(** ** The properties at concrete inputs, on [iso_engine] *)

(** Decides a closed decidable proposition by evaluation. *)
Ltac by_eval := apply (bool_decide_unpack _); vm_compute; exact I.

Lemma throwing_resolver_frame_witness :
  @addRecord iso_engine 0 (VStr "  ") (VStr "Glaucoma") VUndefined seed =
    (Throw (Error "Name is required."), seed)
  ∧ @updateRecord iso_engine (VStr "5") (VStr "Zed") VUndefined (VStr "not-a-date") seed =
      (Throw (Error "dateAdded must be a valid ISO date/time."), put 4 Zed seed)
  ∧ nextId (put 4 Zed seed) = 21
  ∧ length (recordsData (put 4 Zed seed)) = 20%nat
  ∧ Rec.id <$> recordsData (put 4 Zed seed) = Rec.id <$> seed_records
  ∧ recordsData (put 4 Zed seed) !! 3%nat =
      Some (Rec.mk "4" "Sneha" "Crossed_Eyes" "2025-01-08T08:45:00.000Z")
  ∧ @updateRecord iso_engine (VStr "5") VNull (VStr "Flu") (VStr "2025-01-09T12:30:00.000Z") seed =
      (Throw (Error "Disease must be one of: Bulging_Eyes, Cataracts, Crossed_Eyes, Glaucoma, Uveitis"),
       seed).
Proof.
  assert (@addRecord iso_engine 0 (VStr "  ") (VStr "Glaucoma") VUndefined seed =
            (Throw (Error "Name is required."), seed)) as Hadd
    by (vm_compute; reflexivity).
  assert (@updateRecord iso_engine (VStr "5") (VStr "Zed") VUndefined
            (VStr "not-a-date") seed =
            (Throw (Error "dateAdded must be a valid ISO date/time."),
             put 4 Zed seed)) as Hupd
    by (vm_compute; reflexivity).
  pose proof (@throwing_resolver_frame iso_engine 0 (VStr "5") (VStr "Zed")
                VUndefined (VStr "not-a-date") seed
                (Error "dateAdded must be a valid ISO date/time.")
                (put 4 Zed seed)) as (_ & _ & Hframe).
  destruct (Hframe Hupd) as (Hnext & Hlen & Hids & Hothers & _ & _).
  split_and!; [exact Hadd|exact Hupd|exact Hnext|exact Hlen|exact Hids| |].
  - apply Hothers; [reflexivity|vm_compute; discriminate].
  - pose proof (@throwing_resolver_frame iso_engine 0 (VStr "5") VNull
                  (VStr "Flu") (VStr "2025-01-09T12:30:00.000Z") seed
                  (Error "Disease must be one of: Bulging_Eyes, Cataracts, Crossed_Eyes, Glaucoma, Uveitis")
                  ((@updateRecord iso_engine (VStr "5") VNull (VStr "Flu")
                      (VStr "2025-01-09T12:30:00.000Z") seed).2))
      as (_ & _ & Hsame).
    destruct (Hsame ltac:(vm_compute; reflexivity)) as (_ & _ & _ & _ & _ & Hst).
    rewrite <-Hst at 2.
    + vm_compute; reflexivity.
    + right; right. split; [reflexivity|]. right. exists "Flu".
      split; [reflexivity|by_eval].
Defined.


Lemma assigned_ids_fresh_and_increasing_witness :
  (∃ r st',
     @addRecord iso_engine 1767225600123 (VStr "Test") (VStr "Glaucoma") VUndefined seed =
       (Return r, st')
     ∧ Rec.id r = "21")
  ∧ ∃ r st',
      @addRecord iso_engine 2 (VStr "B") (VStr "Uveitis") VNull
        (@run iso_engine
           [AddRecord 0 (VStr "A") (VStr "Glaucoma") VUndefined;
            DeleteRecord (VStr "21");
            AddRecord 1 (VStr " ") (VStr "Cataracts") VUndefined] seed).2 =
        (Return r, st')
      ∧ Rec.id r = "22"
      ∧ (Rec.id r ∉ (Rec.id <$> seed_records) ++ ["21"])
      ∧ nextId st' = 23.
Proof.
  split.
  - apply (@assigned_ids_fresh_and_increasing iso_engine []).
    + vm_compute; discriminate.
    + by_eval.
    + exact I.
  - apply (@assigned_ids_fresh_and_increasing iso_engine
             [AddRecord 0 (VStr "A") (VStr "Glaucoma") VUndefined;
              DeleteRecord (VStr "21");
              AddRecord 1 (VStr " ") (VStr "Cataracts") VUndefined]).
    + vm_compute; discriminate.
    + by_eval.
    + exact I.
Defined.

Lemma deleteRecord_not_found_witness :
  deleteRecord (VStr "999") seed =
    (Return {| success := false;
               message := "Record with id 999 not found.";
               removed := None |}, seed).
Proof. apply (deleteRecord_not_found (VStr "999") seed). by_eval. Defined.

Lemma deleteRecord_removes_record_witness :
  ∃ l1 r l2,
    seed_records = l1 ++ r :: l2
    ∧ Rec.id r = "3"
    ∧ deleteRecord (VStr "3") seed =
        (Return {| success := true;
                   message := "Record 3 deleted successfully.";
                   removed := Some r |},
         {| recordsData := l1 ++ l2; nextId := 21 |})
    ∧ (r ∉ l1 ++ l2)
    ∧ ("3" ∉ Rec.id <$> (l1 ++ l2))
    ∧ S (length (l1 ++ l2)) = 20%nat
    ∧ (records (deleteRecord (VStr "3") seed).2).1 =
        Return (l1 ++ l2).
Proof.
  apply (@deleteRecord_removes_record iso_engine (VStr "3") seed).
  - apply reachable_seed.
  - by_eval.
Defined.

Lemma updateRecord_changes_only_supplied_fields_witness :
  @updateRecord iso_engine (VStr "5") VUndefined VUndefined VUndefined seed =
    (Return Neha, seed)
  ∧ (∃ i, seed_records !! i = Some Neha
       ∧ @updateRecord iso_engine (VStr "5") (VStr "  Zed ") VUndefined VUndefined seed =
           (Return Zed, put i Zed seed))
  ∧ (∃ c i r', seed_records !! i = Some Neha
       ∧ @updateRecord iso_engine (VStr "5") VNull (VStr "Uveitis") VUndefined seed =
           (c, put i r' seed)
       ∧ Rec.id r' = "5" ∧ Rec.name r' = "Neha"
       ∧ Rec.dateAdded r' = "2025-01-09T12:30:00.000Z").
Proof.
  destruct (@updateRecord_changes_only_supplied_fields iso_engine seed Neha)
    as (Hnone & Hname & Hany).
  - apply reachable_seed.
  - by_eval.
  - split_and!.
    + exact Hnone.
    + apply (Hname "  Zed "). vm_compute; discriminate.
    + destruct (Hany VNull (VStr "Uveitis") VUndefined)
        as (c & i & r' & Hi & Heq & _ & Hid & Hn & _ & Hda).
      exists c, i, r'.
      split_and!; [exact Hi|exact Heq|exact Hid|by apply Hn|by apply Hda].
Defined.

Lemma updateRecord_fails_exactly_when_rejected_witness :
  (∃ e, (@updateRecord iso_engine (VStr "5") (VStr " ") VUndefined VUndefined seed).1
        = Throw e)
  ∧ ∃ i r, seed_records !! i = Some r ∧ Rec.id r = "5"
      ∧ @updateRecord iso_engine (VStr "5") (VStr " Zed ") (VStr "Uveitis") VNull seed =
          (Return (@updated iso_engine (VStr " Zed ") (VStr "Uveitis") VNull r),
           put i (@updated iso_engine (VStr " Zed ") (VStr "Uveitis") VNull r) seed).
Proof.
  split.
  - apply (@updateRecord_fails_exactly_when_rejected iso_engine (VStr "5")
             (VStr " ") VUndefined VUndefined seed); [reflexivity|].
    right; left. exists " ". split; reflexivity.
  - apply (@updateRecord_fails_exactly_when_rejected iso_engine (VStr "5")
             (VStr " Zed ") (VStr "Uveitis") VNull seed); [reflexivity|].
    intros [Hid|[(s & [= <-] & Hs)|[(d & [= <-] & Hd)|(t & [=] & _)]]].
    + apply Hid. by_eval.
    + vm_compute in Hs. discriminate.
    + apply Hd. by_eval.
Defined.

Lemma addRecord_validates_name_and_disease_witness :
  @addRecord iso_engine 1767225600123 (VStr "   ") (VStr "Glaucoma") VUndefined seed =
    (Throw (Error "Name is required."), seed)
  ∧ @addRecord iso_engine 1767225600123 (VStr "Test") (VStr "InvalidDisease") VUndefined seed =
      (Throw (Error "Disease must be one of: Bulging_Eyes, Cataracts, Crossed_Eyes, Glaucoma, Uveitis"),
       seed)
  ∧ (let r := Rec.mk "21" "Test" "Glaucoma" "2026-01-01T00:00:00.123Z" in
     @addRecord iso_engine 1767225600123 (VStr " Test ") (VStr "Glaucoma") VUndefined seed =
       (Return r, {| recordsData := seed_records ++ [r]; nextId := 22 |})).
Proof.
  split_and!.
  - apply (@addRecord_validates_name_and_disease iso_engine).
    right; right. exists "   ". split; reflexivity.
  - apply (@addRecord_validates_name_and_disease iso_engine 1767225600123
             (VStr "Test") (VStr "InvalidDisease") VUndefined seed)
      with (s := "Test").
    + intros d [= <-]. by_eval.
    + reflexivity.
    + vm_compute; discriminate.
  - apply (@addRecord_validates_name_and_disease iso_engine 1767225600123
             (VStr " Test ") (VStr "Glaucoma") VUndefined seed)
      with (s := " Test ") (d := "Glaucoma").
    + reflexivity.
    + vm_compute; discriminate.
    + reflexivity.
    + by_eval.
    + exact I.
Defined.

Lemma id_is_compared_as_string_witness :
  record (VNum 5) seed = (Return (Some Neha), seed)
  ∧ @updateRecord iso_engine (VNum 5) VUndefined VUndefined VUndefined seed =
      (Return Neha, seed)
  ∧ (deleteRecord (VNum 5) seed).1 =
      Return {| success := true; message := "Record 5 deleted successfully.";
                removed := Some Neha |}.
Proof.
  apply (@id_is_compared_as_string iso_engine (VNum 5) seed).
  - apply reachable_seed.
  - by_eval.
  - reflexivity.
Defined.

Lemma updateRecord_non_string_is_omitted_witness :
  @updateRecord iso_engine (VStr "5") VNull (VNum 7) (VBool true) seed = (Return Neha, seed)
  ∧ ∃ c r', @updateRecord iso_engine (VStr "5") VNull (VStr "Uveitis") VNull seed =
              (c, put 4 r' seed)
      ∧ Rec.name r' = "Neha" ∧ Rec.dateAdded r' = "2025-01-09T12:30:00.000Z".
Proof.
  destruct (@updateRecord_non_string_is_omitted iso_engine (VStr "5") VNull
              (VNum 7) (VBool true) seed) as (_ & Hfound).
  destruct (Hfound 4%nat Neha) as (Hsame & _); [reflexivity|].
  split; [by apply Hsame|].
  destruct (@updateRecord_non_string_is_omitted iso_engine (VStr "5") VNull
              (VStr "Uveitis") VNull seed) as (_ & Hfound').
  destruct (Hfound' 4%nat Neha) as (_ & c & r' & Heq & Hn & _ & Hda); [reflexivity|].
  exists c, r'. split_and!; [exact Heq|by apply Hn|by apply Hda].
Defined.

(** ** The scenarios of the specification *)

(** The dates of the seed are in canonical form: parsing and printing them
    on [iso_engine] gives them back. *)
Example seed_dates_canonical :
  Forall (λ r, Iso.toISOString <$> Iso.parse (Rec.dateAdded r) = Some (Rec.dateAdded r))
         seed_records.
Proof. by_eval. Qed.

Example iso_parse_rejects :
  Iso.parse "" = None ∧ Iso.parse "not-a-date" = None
  ∧ Iso.parse "2025-02-29T00:00:00.000Z" = None
  ∧ Iso.parse "2024-02-29T24:00:00.000Z" = Some 1709251200000.
Proof. by vm_compute. Qed.

Example scenario_add :
  @addRecord iso_engine 1767225600123 (VStr "Test") (VStr "Glaucoma") VUndefined seed =
    (Return (Rec.mk "21" "Test" "Glaucoma" "2026-01-01T00:00:00.123Z"),
     {| recordsData :=
          seed_records ++ [Rec.mk "21" "Test" "Glaucoma" "2026-01-01T00:00:00.123Z"];
        nextId := 22 |})
  ∧ length (recordsData (@addRecord iso_engine 1767225600123 (VStr "Test")
                           (VStr "Glaucoma") VUndefined seed).2) = 21%nat.
Proof. split; vm_compute; reflexivity. Qed.

Example scenario_update :
  @updateRecord iso_engine (VStr "5") VUndefined (VStr "Uveitis") VUndefined seed =
    (Return (Rec.mk "5" "Neha" "Uveitis" "2025-01-09T12:30:00.000Z"),
     put 4 (Rec.mk "5" "Neha" "Uveitis" "2025-01-09T12:30:00.000Z") seed).
Proof. vm_compute; reflexivity. Qed.

Example scenario_ids_are_not_reused :
  assigned_ids
    (@run iso_engine
       [AddRecord 0 (VStr "A") (VStr "Glaucoma") VUndefined;
        DeleteRecord (VStr "21");
        DeleteRecord (VStr "20");
        AddRecord 1 (VStr "B") (VStr "Uveitis") VNull;
        RecordById (VNum 21)] seed).1 = ["21"; "22"]
  ∧ last (@run iso_engine
       [AddRecord 0 (VStr "A") (VStr "Glaucoma") VUndefined;
        DeleteRecord (VStr "21");
        DeleteRecord (VStr "20");
        AddRecord 1 (VStr "B") (VStr "Uveitis") VNull;
        RecordById (VNum 21)] seed).1 = Some (RecordDone (Return None)).
Proof. split; vm_compute; reflexivity. Qed.

(** * Further properties of the resolvers *)

(** ** [find] after a change of the array *)

Lemma find_by_id_cons (s : string) (x : Rec.t) (l : list Rec.t) :
  find_by_id s (x :: l) =
    if decide (Rec.id x = s) then Some (0%nat, x)
    else prod_map S id <$> find_by_id s l.
Proof. done. Qed.

(** A write that keeps the id of the record at [i] keeps what [find]
    answers for that id, at the same index. *)
Lemma find_by_id_insert (s : string) (l : list Rec.t) (i : nat) (r r' : Rec.t) :
  find_by_id s l = Some (i, r) → Rec.id r' = Rec.id r →
  find_by_id s (<[i := r']> l) = Some (i, r').
Proof.
  revert i. induction l as [|x l IH]; intros i Hfind Hid; [done|].
  rewrite find_by_id_cons in Hfind. destruct i as [|i]; simpl (<[_:=_]> _).
  - case_decide as Hx; [|by destruct (find_by_id s l) as [[]|]].
    injection Hfind as <-. rewrite find_by_id_cons, decide_True; [done|congruence].
  - case_decide as Hx; [done|].
    rewrite find_by_id_cons, decide_False by done.
    destruct (find_by_id s l) as [[j y]|] eqn:Hl; [|done].
    injection Hfind as -> ->. by rewrite (IH i).
Qed.

(** ... and what it answers for every other id. *)
Lemma find_by_id_insert_other (s : string) (l : list Rec.t) (i : nat) (r r' : Rec.t) :
  l !! i = Some r → Rec.id r' = Rec.id r → s ≠ Rec.id r →
  snd <$> find_by_id s (<[i := r']> l) = snd <$> find_by_id s l.
Proof.
  revert i. induction l as [|x l IH]; intros i Hi Hid Hs; [done|].
  destruct i as [|i]; simpl (<[_:=_]> _); simpl in Hi.
  - injection Hi as ->. rewrite !find_by_id_cons.
    rewrite !decide_False by congruence. done.
  - rewrite !find_by_id_cons. case_decide; [done|].
    specialize (IH i Hi Hid Hs).
    by destruct (find_by_id s (<[i:=r']> l)) as [[]|], (find_by_id s l) as [[]|];
      simplify_eq/=.
Qed.

Lemma find_by_id_delete_other (s : string) (l : list Rec.t) (i : nat) (r : Rec.t) :
  l !! i = Some r → s ≠ Rec.id r →
  snd <$> find_by_id s (delete i l) = snd <$> find_by_id s l.
Proof.
  revert i. induction l as [|x l IH]; intros i Hi Hs; [done|].
  destruct i as [|i]; simpl (delete _ _); simpl in Hi.
  - injection Hi as ->. rewrite find_by_id_cons, decide_False by congruence.
    by destruct (find_by_id s l) as [[]|].
  - rewrite !find_by_id_cons. case_decide; [done|].
    specialize (IH i Hi Hs).
    by destruct (find_by_id s (delete i l)) as [[]|], (find_by_id s l) as [[]|];
      simplify_eq/=.
Qed.

Lemma find_by_id_snoc_other (s : string) (l : list Rec.t) (r : Rec.t) :
  s ≠ Rec.id r → snd <$> find_by_id s (l ++ [r]) = snd <$> find_by_id s l.
Proof.
  intros Hs. induction l as [|x l IH]; simpl (_ ++ _).
  - by rewrite find_by_id_cons, decide_False by congruence.
  - rewrite !find_by_id_cons. case_decide; [done|].
    by destruct (find_by_id s (l ++ [r])) as [[]|], (find_by_id s l) as [[]|];
      simplify_eq/=.
Qed.

Lemma find_by_id_snoc_new (l : list Rec.t) (r : Rec.t) :
  Rec.id r ∉ Rec.id <$> l →
  find_by_id (Rec.id r) (l ++ [r]) = Some (length l, r).
Proof.
  intros Hnew. apply find_by_id_None in Hnew.
  unfold find_by_id in *. rewrite list_find_app_r by done.
  simpl. by rewrite decide_True by done.
Qed.

Lemma find_by_id_delete_self (s : string) (l : list Rec.t) (i : nat) (r : Rec.t) :
  NoDup (Rec.id <$> l) → find_by_id s l = Some (i, r) →
  find_by_id s (delete i l) = None.
Proof.
  intros Hnd Hfind.
  destruct (find_by_id_split _ _ _ _ Hfind) as (l1 & l2 & Hl & _ & -> & Hl1).
  apply find_by_id_Some in Hfind as (_ & Hid & _).
  apply find_by_id_None. rewrite Hl, fmap_app, fmap_cons, Hid in Hnd.
  apply NoDup_app in Hnd as (_ & _ & [Hl2 _]%NoDup_cons).
  rewrite fmap_app, elem_of_app. by intros [?|?].
Qed.

(** ** [trim] *)

Lemma trimStart_head (s : string) (c : ascii) (t : string) :
  trimStart s = String c t → is_ws c = false.
Proof.
  induction s as [|x s IH]; [done|]. simpl.
  destruct (is_ws x) eqn:Hx; [done|]. by intros [= <- _].
Qed.

Lemma trimEnd_idem (s : string) : trimEnd (trimEnd s) = trimEnd s.
Proof.
  induction s as [|c s IH]; [done|]. simpl.
  destruct (trimEnd s) as [|c' t] eqn:Hs.
  - destruct (is_ws c) eqn:Hc; [done|]. simpl. by rewrite Hc.
  - simpl in *. by rewrite IH.
Qed.

Lemma trimEnd_head (c : ascii) (s : string) :
  is_ws c = false → ∃ t, trimEnd (String c s) = String c t.
Proof.
  intros Hc. simpl. destruct (trimEnd s); rewrite ?Hc; by eauto.
Qed.

Lemma trim_idem (s : string) : trim (trim s) = trim s.
Proof.
  unfold trim. destruct (trimStart s) as [|c t] eqn:Hs; [done|].
  apply trimStart_head in Hs.
  destruct (trimEnd_head c t Hs) as [t' Ht]. rewrite Ht.
  simpl trimStart. rewrite Hs, <-Ht. apply trimEnd_idem.
Qed.

(** ** Closed forms of [addRecord] and [updateRecord] *)

Section MoreEffects.
Context `{DateEngine}.
Implicit Types (st : Store) (l : list Rec.t) (r : Rec.t).
Implicit Types (id name disease dateAdded : value).

(** What a successful [addRecord] tells about its arguments and result. *)
Lemma addRecord_Return now name disease dateAdded st r st' :
  addRecord now name disease dateAdded st = (Return r, st') →
  ∃ s d, name = VStr s ∧ trim s ≠ "" ∧ disease = VStr d ∧ d ∈ DISEASES
    ∧ Rec.id r = ToString (VNum (nextId st)) ∧ Rec.name r = trim s
    ∧ Rec.disease r = d
    ∧ st' = {| recordsData := recordsData st ++ [r]; nextId := nextId st + 1 |}.
Proof.
  unfold addRecord, includes. step_js.
  destruct name as [| |[]|n|s]; simpl; try done;
    try (destruct (n =? 0); simpl; done).
  destruct (negb (String.eqb s "")); simpl; [|done].
  destruct (String.eqb_spec (trim s) "") as [|Hs]; simpl; [done|].
  destruct disease as [| | | |d]; try done.
  case_bool_decide as Hd; [|done].
  destruct (truthy dateAdded && isValidDate dateAdded); simpl;
    [destruct (new_Date dateAdded); simpl; [|done]|];
    intros [= <- <-]; by exists s, d.
Qed.

Lemma updateRecord_accepted id name disease dateAdded st i r :
  find_by_id (ToString id) (recordsData st) = Some (i, r) →
  fields_accepted name disease dateAdded →
  updateRecord id name disease dateAdded st =
    (Return (updated name disease dateAdded r),
     put i (updated name disease dateAdded r) st).
Proof.
  intros Hfind (Hname & Hdisease & Hdate).
  pose proof Hfind as (Hi & _)%find_by_id_Some.
  rewrite (updateRecord_found _ _ _ _ _ _ _ Hfind). cbv [bind ret].
  rewrite update_name_spec.
  destruct name as [| | | |s];
    [..|rewrite decide_False by by apply Hname];
    cbv beta iota; rewrite update_disease_spec;
    (destruct disease as [| | | |d];
       [..|rewrite decide_True by by apply Hdisease]);
    cbv beta iota; rewrite update_dateAdded_spec;
    (destruct dateAdded as [| | | |t];
       [..|destruct (Hdate t eq_refl) as [Ht [tv Htv]];
           rewrite Htv, decide_False by done]);
    unfold updated; rewrite ?Htv, ?put_put; cbv beta iota zeta;
    reflexivity || by rewrite put_id.
Qed.

Lemma updateRecord_Return id name disease dateAdded st r' st' :
  updateRecord id name disease dateAdded st = (Return r', st') →
  fields_accepted name disease dateAdded
  ∧ ∃ i r, find_by_id (ToString id) (recordsData st) = Some (i, r).
Proof.
  destruct (find_by_id (ToString id) (recordsData st)) as [[i r]|] eqn:Hfind;
    [|by rewrite updateRecord_absent].
  rewrite (updateRecord_found _ _ _ _ _ _ _ Hfind). intros Hret.
  split; [|by eauto]. revert Hret.
  update_cases name disease dateAdded; intros Hret; try discriminate Hret;
    (split_and!; [intros ? [=]; by subst..]).
Qed.

(** The counter is the id of no stored record. *)
Lemma store_inv_fresh st :
  store_inv st → ToString (VNum (nextId st)) ∉ Rec.id <$> recordsData st.
Proof.
  intros [_ Hall] (r & Heq & Hr)%list_elem_of_fmap.
  eapply list.Forall_forall in Hall as (n & Hn & ?); [|done].
  rewrite Hn in Heq. apply (inj (ToString ∘ VNum)) in Heq. lia.
Qed.

Lemma updated_id name disease dateAdded r :
  Rec.id (updated name disease dateAdded r) = Rec.id r.
Proof.
  unfold updated. destruct name, disease, dateAdded; try done;
    by destruct (Date_parse _).
Qed.

Lemma updated_idem name disease dateAdded r :
  updated name disease dateAdded (updated name disease dateAdded r) =
  updated name disease dateAdded r.
Proof.
  unfold updated. destruct name, disease, dateAdded; try done;
    by destruct (Date_parse _).
Qed.

(** A block of [updateRecord] that returns leaves the record where [find]
    finds it. *)
Lemma update_name_found s i name r st r1 st1 :
  find_by_id s (recordsData st) = Some (i, r) →
  update_name i name r st = (Return r1, st1) →
  find_by_id s (recordsData st1) = Some (i, r1).
Proof.
  intros Hfind. rewrite update_name_spec.
  destruct name; try (by intros [= <- <-]).
  case_decide; [done|]. intros [= <- <-]. by eapply find_by_id_insert.
Qed.

Lemma update_disease_found s i disease r st r1 st1 :
  find_by_id s (recordsData st) = Some (i, r) →
  update_disease i disease r st = (Return r1, st1) →
  find_by_id s (recordsData st1) = Some (i, r1).
Proof.
  intros Hfind. rewrite update_disease_spec.
  destruct disease; try (by intros [= <- <-]).
  case_decide; [|done]. intros [= <- <-]. by eapply find_by_id_insert.
Qed.

(** Whatever [updateRecord] answers, a well-formed record stays so. *)
Lemma updateRecord_well_formed id name disease dateAdded st i r :
  find_by_id (ToString id) (recordsData st) = Some (i, r) → well_formed r →
  ∃ c r', updateRecord id name disease dateAdded st = (c, put i r' st)
          ∧ well_formed r'.
Proof.
  intros Hfind (Hne & Htrim & Hdis).
  rewrite (updateRecord_found _ _ _ _ _ _ _ Hfind).
  apply find_by_id_Some in Hfind as (Hi & _ & _).
  update_cases name disease dateAdded; rewrite ?put_put;
    (eexists _, _; split;
       [reflexivity || (rewrite (put_id i r st Hi); reflexivity)|]);
    unfold well_formed; simpl; split_and!; by auto using trim_idem.
Qed.
End MoreEffects.

Lemma StronglySorted_snoc_lt (ns : list Z) (x : Z) :
  StronglySorted Z.lt ns → Forall (λ n, n < x) ns → StronglySorted Z.lt (ns ++ [x]).
Proof.
  intros Hs Hall. apply StronglySorted_app_2; [|done|repeat constructor].
  intros a b Ha ->%list_elem_of_singleton. by eapply list.Forall_forall in Hall.
Qed.

Lemma StronglySorted_delete (ns : list Z) (i : nat) :
  StronglySorted Z.lt ns → StronglySorted Z.lt (delete i ns).
Proof.
  intros Hs. revert i. induction Hs as [|n ns Hs IH Hall]; intros [|i]; simpl.
  - constructor.
  - constructor.
  - done.
  - constructor; [apply IH|by apply Forall_delete].
Qed.

Lemma sorted_range_length (ns : list Z) (a b : Z) :
  a ≤ b → StronglySorted Z.lt ns → Forall (λ n, a ≤ n < b) ns →
  Z.of_nat (length ns) ≤ b - a.
Proof.
  intros Hab Hs. revert a Hab. induction Hs as [|n ns Hs IH Hall]; intros a Hab Hr.
  - simpl. lia.
  - apply Forall_cons in Hr as [Hn Hr]. simpl length.
    assert (Z.of_nat (length ns) ≤ b - (n + 1)); [|lia].
    apply IH; [lia|]. apply list.Forall_forall. intros m Hm.
    eapply list.Forall_forall in Hall; [|done].
    eapply list.Forall_forall in Hr; [|done]. lia.
Qed.

(** ** Lookups after a change *)

Section Extras.
Context `{DateEngine}.
Implicit Types (st : Store) (l : list Rec.t) (r : Rec.t).
Implicit Types (id name disease dateAdded : value).

(** X1. A record just created is found under the id it was given, and it
    is the last of the collection. *)
Theorem record_after_addRecord now name disease dateAdded st r st' :
  reachable st →
  addRecord now name disease dateAdded st = (Return r, st') →
  record (VStr (Rec.id r)) st' = (Return (Some r), st')
  ∧ last (recordsData st') = Some r
  ∧ record (VStr (Rec.id r)) st = (Return None, st).
Proof.
  intros Hinv%reachable_inv Hadd.
  apply addRecord_Return in Hadd as (s & d & _ & _ & _ & _ & Hid & _ & _ & ->).
  pose proof (store_inv_fresh st Hinv) as Hfresh. rewrite <-Hid in Hfresh.
  rewrite !record_spec. simpl. split_and!.
  - by rewrite find_by_id_snoc_new.
  - apply last_snoc.
  - apply find_by_id_None in Hfresh. by rewrite Hfresh.
Qed.

(** X2. With a [dateAdded] that is a string, [null] or omitted,
    [addRecord] succeeds exactly when the name is a string that does not
    trim to the empty string and the disease is one of the five; a name
    that is neither a string nor falsy makes it throw a [TypeError], the
    call of [trim] failing. *)
Theorem addRecord_succeeds_exactly_when now name disease dateAdded st :
  (optional_string dateAdded →
   (∃ r st', addRecord now name disease dateAdded st = (Return r, st'))
   ↔ ∃ s d, name = VStr s ∧ trim s ≠ "" ∧ disease = VStr d ∧ d ∈ DISEASES)
  ∧ ((addRecord now name disease dateAdded st).1 = Throw TypeError
     ↔ is_string name = false ∧ truthy name = true).
Proof.
  split.
  - intros Hopt. split.
    + intros (r & st' & Hadd).
      apply addRecord_Return in Hadd as (s & d & ? & ? & ? & ? & _).
      by exists s, d.
    + intros (s & d & -> & Hs & -> & Hd).
      rewrite addRecord_valid by done. by eauto.
  - unfold addRecord, includes. step_js.
    destruct name as [| |[]|n|s]; simpl.
    + split; [done|by intros [? ?]].
    + split; [done|by intros [? ?]].
    + done.
    + split; [done|by intros [? ?]].
    + destruct (n =? 0); simpl; [split; [done|by intros [? ?]]|done].
    + split; [|by intros [? ?]].
      destruct (negb (String.eqb s "")); simpl; [|done].
      destruct (negb (String.eqb (trim s) "")); simpl; [|done].
      destruct disease as [| | | |d]; try done.
      case_bool_decide; [|done].
      destruct (truthy dateAdded && isValidDate dateAdded); simpl; [|done].
      by destruct (new_Date dateAdded).
Qed.


(** X4. Once [deleteRecord] has removed the record of an id, the id is
    gone: [record] answers [null], a second [deleteRecord] reports that it
    was not found and changes nothing, and [updateRecord] throws the
    not-found error. *)
Theorem id_gone_after_deleteRecord id st :
  reachable st → ToString id ∈ Rec.id <$> recordsData st →
  let st' := (deleteRecord id st).2 in
  record id st' = (Return None, st')
  ∧ deleteRecord id st' =
      (Return {| success := false;
                 message := "Record with id " +:+ ToString id +:+ " not found.";
                 removed := None |}, st')
  ∧ ∀ name disease dateAdded,
      updateRecord id name disease dateAdded st' =
        (Throw (Error ("Record with id " +:+ ToString id +:+ " not found.")), st').
Proof.
  intros [Hnd _]%reachable_inv (i & r & Hfind)%find_by_id_elem_of st'.
  assert (find_by_id (ToString id) (recordsData st') = None) as Hgone.
  { unfold st'. rewrite (deleteRecord_present _ _ _ _ Hfind). simpl.
    by eapply find_by_id_delete_self. }
  split_and!.
  - by rewrite record_spec, Hgone.
  - by apply deleteRecord_absent.
  - intros. by apply updateRecord_absent.
Qed.

(** X5. Deleting the record that [addRecord] has just created gives the
    collection back as it was before the two calls; the counter stays
    advanced, so the id is not handed out again. *)
Theorem deleteRecord_undoes_addRecord now name disease dateAdded st r st' :
  reachable st →
  addRecord now name disease dateAdded st = (Return r, st') →
  deleteRecord (VStr (Rec.id r)) st' =
    (Return {| success := true;
               message := "Record " +:+ Rec.id r +:+ " deleted successfully.";
               removed := Some r |},
     {| recordsData := recordsData st; nextId := nextId st + 1 |}).
Proof.
  intros Hinv%reachable_inv Hadd.
  apply addRecord_Return in Hadd as (s & d & _ & _ & _ & _ & Hid & _ & _ & ->).
  pose proof (store_inv_fresh st Hinv) as Hfresh. rewrite <-Hid in Hfresh.
  rewrite (deleteRecord_present _ _ (length (recordsData st)) r); simpl.
  - by rewrite delete_middle, app_nil_r.
  - by apply find_by_id_snoc_new.
Qed.
(** X6. A successful [updateRecord] is idempotent: the same call on the
    store it left returns the same record and leaves that store. *)
Theorem updateRecord_idempotent id name disease dateAdded st r' st' :
  updateRecord id name disease dateAdded st = (Return r', st') →
  updateRecord id name disease dateAdded st' = (Return r', st').
Proof.
  intros Hret.
  destruct (updateRecord_Return _ _ _ _ _ _ _ Hret) as (Hok & i & r & Hfind).
  rewrite (updateRecord_accepted _ _ _ _ _ _ _ Hfind Hok) in Hret.
  injection Hret as <- <-.
  rewrite (updateRecord_accepted id name disease dateAdded _ i
             (updated name disease dateAdded r)); [|simpl|done].
  - by rewrite updated_idem, put_put.
  - eapply find_by_id_insert; [done|]. apply updated_id.
Qed.

(** X7. The record that [updateRecord] returns is the one that [record]
    finds under the same id afterwards. *)
Theorem record_after_updateRecord id name disease dateAdded st r' st' :
  updateRecord id name disease dateAdded st = (Return r', st') →
  record id st' = (Return (Some r'), st') ∧ Rec.id r' = ToString id.
Proof.
  intros Hret.
  destruct (updateRecord_Return _ _ _ _ _ _ _ Hret) as (Hok & i & r & Hfind).
  rewrite (updateRecord_accepted _ _ _ _ _ _ _ Hfind Hok) in Hret.
  injection Hret as <- <-. rewrite record_spec. simpl.
  rewrite (find_by_id_insert _ _ i r) by (done || apply updated_id).
  split; [done|]. rewrite updated_id. by apply find_by_id_Some in Hfind as (_ & ? & _).
Qed.

(** X8. [updateRecord] with several fields is three updates of one field
    each, in the order name, disease, date, the first that throws ending
    the sequence: same answer, same store. *)
Theorem updateRecord_is_three_updates id name disease dateAdded st :
  updateRecord id name disease dateAdded st =
    (let! _ := updateRecord id name VUndefined VUndefined in
     let! _ := updateRecord id VUndefined disease VUndefined in
     updateRecord id VUndefined VUndefined dateAdded) st.
Proof.
  destruct (find_by_id (ToString id) (recordsData st)) as [[i r]|] eqn:Hfind.
  - rewrite (updateRecord_found _ _ _ _ _ _ _ Hfind). cbv [bind].
    rewrite (updateRecord_found id name VUndefined VUndefined _ _ _ Hfind).
    cbv [bind].
    destruct (update_name i name r st) as [[r1|e1] st1] eqn:Hname; [|done].
    pose proof (update_name_found _ _ _ _ _ _ _ Hfind Hname) as Hfind1.
    rewrite (update_disease_spec i VUndefined). cbv beta iota.
    rewrite (update_dateAdded_spec i VUndefined). cbv beta iota. cbv [ret].
    rewrite (updateRecord_found id VUndefined disease VUndefined _ _ _ Hfind1).
    cbv [bind]. rewrite (update_name_spec i VUndefined). cbv beta iota.
    destruct (update_disease i disease r1 st1) as [[r2|e2] st2] eqn:Hdis; [|done].
    pose proof (update_disease_found _ _ _ _ _ _ _ Hfind1 Hdis) as Hfind2.
    rewrite (update_dateAdded_spec i VUndefined). cbv beta iota. cbv [ret].
    rewrite (updateRecord_found id VUndefined VUndefined dateAdded _ _ _ Hfind2).
    cbv [bind]. rewrite (update_name_spec i VUndefined). cbv beta iota.
    rewrite (update_disease_spec i VUndefined). cbv beta iota.
    by destruct (update_dateAdded i dateAdded r2 st2) as [[r3|e3] st3].
  - cbv [bind]. by rewrite !updateRecord_absent.
Qed.

Lemma updateRecord_error_cases id name disease dateAdded st e :
  (updateRecord id name disease dateAdded st).1 = Throw e →
  ((ToString id ∉ Rec.id <$> recordsData st) ∧
   e = Error ("Record with id " +:+ ToString id +:+ " not found."))
  ∨ ((ToString id ∈ Rec.id <$> recordsData st) ∧
     (blank_name name ∧ e = Error "Name cannot be empty."
      ∨ (¬ blank_name name
         ∧ (unknown_disease disease
            ∧ e = Error "Disease must be one of: Bulging_Eyes, Cataracts, Crossed_Eyes, Glaucoma, Uveitis"
            ∨ (¬ unknown_disease disease
               ∧ (∃ t, dateAdded = VStr t ∧ (t = "" ∨ Date_parse t = None))
               ∧ e = Error "dateAdded must be a valid ISO date/time."))))).
Proof.
  destruct (find_by_id (ToString id) (recordsData st)) as [[i r]|] eqn:Hfind.
  - intros Hthrow. right. split.
    { apply find_by_id_Some in Hfind as (Hi & <- & _).
      apply list_elem_of_fmap_2. by eapply list_elem_of_lookup_2. }
    revert Hthrow. rewrite (updateRecord_found _ _ _ _ _ _ _ Hfind).
    unfold blank_name, unknown_disease.
    assert (∀ v, is_string v = false → ∀ P : string → Prop, ¬ ∃ x, v = VStr x ∧ P x)
      as Hnot.
    { intros v Hv P (x & -> & _). done. }
    update_cases name disease dateAdded; intros [= <-];
      first
        [ left; split; [by eauto|done]
        | right; split; [first [by apply Hnot | by intros (? & [= <-] & ?)]|];
          first
            [ left; split; [by eauto|done]
            | right; split; [first [by apply Hnot | by intros (? & [= <-] & ?)]|];
              split; [by eauto|done] ] ].
  - rewrite updateRecord_absent by done. intros [= <-]. left.
    split; [|done]. by apply find_by_id_None.
Qed.
(** X9. Which error [updateRecord] throws: the not-found error when no
    record has the id; otherwise the error of the first rejected field in
    the order name, disease, date. It throws nothing else. *)
Theorem updateRecord_error id name disease dateAdded st e :
  (updateRecord id name disease dateAdded st).1 = Throw e →
  ((ToString id ∉ Rec.id <$> recordsData st) →
     e = Error ("Record with id " +:+ ToString id +:+ " not found."))
  ∧ ((ToString id ∈ Rec.id <$> recordsData st) →
       (blank_name name → e = Error "Name cannot be empty.")
       ∧ (¬ blank_name name → unknown_disease disease →
            e = Error "Disease must be one of: Bulging_Eyes, Cataracts, Crossed_Eyes, Glaucoma, Uveitis")
       ∧ (¬ blank_name name → ¬ unknown_disease disease →
            e = Error "dateAdded must be a valid ISO date/time."
            ∧ ∃ t, dateAdded = VStr t ∧ (t = "" ∨ Date_parse t = None))).
Proof.
  intros Hthrow.
  destruct (updateRecord_error_cases _ _ _ _ _ _ Hthrow)
    as [[Hno ->]|[Hyes [[Hn ->]|[Hn [[Hd ->]|(Hd & Ht & ->)]]]]];
    split; try done; intros _; split_and!; try done; by intros.
Qed.

(** ** Invariants of the reachable stores *)

(** X10. Every record the server ever holds is well formed: its name is
    not empty and has no white space at either end, and its disease is one
    of the five. *)
Theorem reachable_well_formed st :
  reachable st → Forall well_formed (recordsData st).
Proof.
  induction 1 as [|c st Hreach IH].
  - apply (bool_decide_unpack _). by vm_compute.
  - destruct c as [|id|now name disease dateAdded
                   |id name disease dateAdded|id]; simpl; [done..| | |].
    + destruct (addRecord now name disease dateAdded st) as [[r|e] st'] eqn:Hadd.
      * destruct (addRecord_Return _ _ _ _ _ _ _ Hadd)
          as (s & d & _ & Hs & _ & Hd & _ & Hname & Hdis & ->). simpl.
        apply Forall_app. split; [done|]. apply Forall_singleton.
        unfold well_formed. rewrite Hname, Hdis. by auto using trim_idem.
      * destruct (addRecord_effect now name disease dateAdded st)
          as [[e' Heq]|(r & Heq & _)]; rewrite Heq in Hadd; by simplify_eq.
    + destruct (find_by_id (ToString id) (recordsData st)) as [[i r]|] eqn:Hfind.
      * pose proof Hfind as (Hi & _)%find_by_id_Some.
        destruct (updateRecord_well_formed id name disease dateAdded st i r Hfind)
          as (c & r' & -> & Hwf); [by eapply Forall_lookup_1|].
        simpl. by apply Forall_insert.
      * by rewrite updateRecord_absent.
    + destruct (find_by_id (ToString id) (recordsData st)) as [[i r]|] eqn:Hfind.
      * rewrite (deleteRecord_present _ _ _ _ Hfind). simpl. by apply Forall_delete.
      * by rewrite deleteRecord_absent.
Qed.

(** X11. The collection is always in increasing order of id: the ids are
    the decimal forms of a strictly increasing sequence of numbers between 1
    and the counter, which is at least 21; so ids are unique and there are
    fewer records than the counter says. *)
Theorem reachable_ids_increasing st :
  reachable st →
  21 ≤ nextId st
  ∧ Z.of_nat (length (recordsData st)) < nextId st
  ∧ ∃ ns, Rec.id <$> recordsData st = ToString ∘ VNum <$> ns
          ∧ StronglySorted Z.lt ns
          ∧ Forall (λ n, 1 ≤ n < nextId st) ns.
Proof.
  intros Hreach.
  assert (21 ≤ nextId st
          ∧ ∃ ns, Rec.id <$> recordsData st = ToString ∘ VNum <$> ns
                  ∧ StronglySorted Z.lt ns
                  ∧ Forall (λ n, 1 ≤ n < nextId st) ns) as (Hn & ns & Hids & Hs & Hr).
  { induction Hreach as [|c st Hreach (Hn & ns & Hids & Hs & Hr)].
    - split; [done|]. exists (seqZ 1 20).
      split_and!; [done|apply StronglySorted_seqZ|]. apply Forall_seqZ. simpl. lia.
    - destruct c as [|id|now name disease dateAdded
                     |id name disease dateAdded|id]; simpl; [by eauto..| | |].
      + destruct (addRecord_effect now name disease dateAdded st)
          as [[e ->]|(r & -> & Hid)]; simpl; [by eauto|].
        split; [lia|]. exists (ns ++ [nextId st]). split_and!.
        * rewrite !fmap_app, Hids. simpl. by rewrite Hid.
        * apply StronglySorted_snoc_lt; [done|].
          eapply Forall_impl; [done|]. simpl. lia.
        * apply Forall_app. split; [|apply Forall_singleton; lia].
          eapply Forall_impl; [done|]. simpl. lia.
      + destruct (find_by_id (ToString id) (recordsData st)) as [[i r]|] eqn:Hfind.
        * destruct (updateRecord_frame id name disease dateAdded st i r Hfind)
            as (c & r' & -> & Hid & _). simpl.
          apply find_by_id_Some in Hfind as (Hi & _).
          split; [done|]. exists ns. split_and!; [|done..].
          rewrite list_fmap_insert, Hid, list_insert_id; [done|].
          by rewrite list_lookup_fmap, Hi.
        * rewrite updateRecord_absent by done. by eauto.
      + destruct (find_by_id (ToString id) (recordsData st)) as [[i r]|] eqn:Hfind.
        * rewrite (deleteRecord_present _ _ _ _ Hfind). simpl.
          split; [done|]. exists (delete i ns). split_and!.
          -- by rewrite !list_fmap_delete, Hids.
          -- by apply StronglySorted_delete.
          -- by apply Forall_delete.
        * rewrite deleteRecord_absent by done. by eauto. }
  split_and!; [done| |by eauto].
  apply (f_equal length) in Hids. rewrite !length_fmap in Hids. rewrite Hids.
  pose proof (sorted_range_length ns 1 (nextId st)) as Hlen.
  specialize (Hlen ltac:(lia) Hs Hr). lia.
Qed.

(** X12. Bookkeeping of a run from the seed: the counter is 21 plus the
    number of successful [addRecord] calls, and the collection holds 20
    records plus those added minus those a [deleteRecord] reported as
    removed. *)
Theorem run_bookkeeping (cs : list call) :
  nextId (run cs seed).2 = 21 + count added (run cs seed).1
  ∧ Z.of_nat (length (recordsData (run cs seed).2)) =
      20 + count added (run cs seed).1 - count deleted (run cs seed).1.
Proof.
  assert (∀ c st,
    nextId (exec c st).2 = nextId st + (if added (exec c st).1 then 1 else 0)
    ∧ Z.of_nat (length (recordsData (exec c st).2)) =
        Z.of_nat (length (recordsData st))
        + (if added (exec c st).1 then 1 else 0)
        - (if deleted (exec c st).1 then 1 else 0)) as Hexec.
  { intros c st. destruct c as [|id|now name disease dateAdded
                                |id name disease dateAdded|id]; simpl;
      [split; lia..| | |].
    - destruct (addRecord_effect now name disease dateAdded st)
        as [[e ->]|(r & -> & _)]; simpl; [split; lia|].
      rewrite length_app. simpl. split; lia.
    - destruct (find_by_id (ToString id) (recordsData st)) as [[i r]|] eqn:Hfind.
      + destruct (updateRecord_frame id name disease dateAdded st i r Hfind)
          as (c & r' & -> & _). simpl. rewrite length_insert.
        destruct c; simpl; split; lia.
      + rewrite updateRecord_absent by done. simpl. split; lia.
    - destruct (find_by_id (ToString id) (recordsData st)) as [[i r]|] eqn:Hfind.
      + rewrite (deleteRecord_present _ _ _ _ Hfind). simpl.
        apply find_by_id_Some in Hfind as (Hi%lookup_lt_Some & _).
        rewrite length_delete by (apply lookup_lt_is_Some; lia). split; lia.
      + rewrite deleteRecord_absent by done. simpl. split; lia. }
  assert (∀ st,
    nextId (run cs st).2 = nextId st + count added (run cs st).1
    ∧ Z.of_nat (length (recordsData (run cs st).2)) =
        Z.of_nat (length (recordsData st))
        + count added (run cs st).1 - count deleted (run cs st).1) as Hrun.
  { induction cs as [|c cs IH]; intros st; simpl; [split; lia|].
    specialize (Hexec c st). destruct (exec c st) as [r st1].
    specialize (IH st1). destruct (run cs st1) as [rs st2]. simpl in *. lia. }
  apply (Hrun seed).
Qed.

(** X13. A call changes what [record] finds for one id at most: that of
    the record it creates, updates or removes. For every other id the answer
    of [record] is the same before and after, whatever the call answered. *)
Theorem other_lookups_preserved (c : call) id' st :
  addressed c st ≠ Some (ToString id') →
  (record id' (exec c st).2).1 = (record id' st).1.
Proof.
  intros Hother. rewrite !record_spec. simpl. f_equal.
  destruct c as [|id|now name disease dateAdded
                 |id name disease dateAdded|id]; simpl in *; [done..| | |].
  - destruct (addRecord_effect now name disease dateAdded st)
      as [[e ->]|(r & -> & Hid)]; simpl; [done|].
    apply find_by_id_snoc_other. intros Heq. apply Hother. by rewrite Heq, Hid.
  - destruct (find_by_id (ToString id) (recordsData st)) as [[i r]|] eqn:Hfind.
    + destruct (updateRecord_frame id name disease dateAdded st i r Hfind)
        as (c & r' & -> & Hid & _). simpl.
      apply find_by_id_Some in Hfind as (Hi & Hr & _).
      eapply find_by_id_insert_other; [done..|congruence].
    + by rewrite updateRecord_absent.
  - destruct (find_by_id (ToString id) (recordsData st)) as [[i r]|] eqn:Hfind.
    + rewrite (deleteRecord_present _ _ _ _ Hfind). simpl.
      apply find_by_id_Some in Hfind as (Hi & Hr & _).
      eapply find_by_id_delete_other; [done|congruence].
    + by rewrite deleteRecord_absent.
Qed.
(** X14. [updateRecord] returns exactly when a record has the id and
    every argument that is a string passes its test; in particular an empty
    [dateAdded] string is rejected whatever the engine's parser would say
    about it. *)
Theorem updateRecord_returns_exactly_when id name disease dateAdded st :
  ((∃ r' st', updateRecord id name disease dateAdded st = (Return r', st'))
   ↔ (ToString id ∈ Rec.id <$> recordsData st)
     ∧ fields_accepted name disease dateAdded)
  ∧ ∃ e, (updateRecord id name disease (VStr "") st).1 = Throw e.
Proof.
  split; [split|].
  - intros (r' & st' & Hret).
    destruct (updateRecord_Return _ _ _ _ _ _ _ Hret) as (Hok & i & r & Hfind).
    split; [|done]. apply find_by_id_Some in Hfind as (Hi & <- & _).
    apply list_elem_of_fmap_2. by eapply list_elem_of_lookup_2.
  - intros [(i & r & Hfind)%find_by_id_elem_of Hok].
    rewrite (updateRecord_accepted _ _ _ _ _ _ _ Hfind Hok). by eauto.
  - destruct (updateRecord id name disease (VStr "") st) as [[r'|e] st'] eqn:Hret;
      [|by eauto].
    destruct (updateRecord_Return _ _ _ _ _ _ _ Hret) as ((_ & _ & Hdate) & _).
    by destruct (Hdate "" eq_refl).
Qed.
End Extras.

(** ** The further properties at concrete inputs, on [iso_engine] *)

Lemma addRecord_on_seed :
  @addRecord iso_engine 1767225600123 (VStr " Test ") (VStr "Glaucoma") VUndefined seed =
    (Return Test21, seed21).
Proof. vm_compute; reflexivity. Qed.

Lemma updateRecord_on_seed :
  @updateRecord iso_engine (VStr "5") (VStr " Zed ") (VStr "Uveitis") VNull seed =
    (Return Zed_uveitis, put 4 Zed_uveitis seed).
Proof. vm_compute; reflexivity. Qed.

Lemma record_after_addRecord_witness :
  record (VStr "21") seed21 = (Return (Some Test21), seed21)
  ∧ last (recordsData seed21) = Some Test21
  ∧ record (VStr "21") seed = (Return None, seed).
Proof.
  apply (@record_after_addRecord iso_engine 1767225600123 (VStr " Test ")
           (VStr "Glaucoma") VUndefined seed Test21 seed21).
  - apply reachable_seed.
  - apply addRecord_on_seed.
Defined.

Lemma addRecord_succeeds_exactly_when_witness :
  (∃ r st', @addRecord iso_engine 0 (VStr " Test ") (VStr "Glaucoma") VNull seed =
              (Return r, st'))
  ∧ (@addRecord iso_engine 0 (VNum 7) (VStr "Glaucoma") VNull seed).1 = Throw TypeError.
Proof.
  split.
  - apply (@addRecord_succeeds_exactly_when iso_engine 0 (VStr " Test ")
             (VStr "Glaucoma") VNull seed); [exact I|].
    exists " Test ", "Glaucoma". split_and!; [reflexivity| |reflexivity|by_eval].
    vm_compute; discriminate.
  - apply (@addRecord_succeeds_exactly_when iso_engine 0 (VNum 7)
             (VStr "Glaucoma") VNull seed). split; reflexivity.
Defined.


Lemma id_gone_after_deleteRecord_witness :
  let st' := (deleteRecord (VStr "3") seed).2 in
  record (VStr "3") st' = (Return None, st')
  ∧ deleteRecord (VStr "3") st' =
      (Return {| success := false;
                 message := "Record with id 3 not found.";
                 removed := None |}, st')
  ∧ ∀ name disease dateAdded,
      @updateRecord iso_engine (VStr "3") name disease dateAdded st' =
        (Throw (Error "Record with id 3 not found."), st').
Proof.
  apply (@id_gone_after_deleteRecord iso_engine (VStr "3") seed).
  - apply reachable_seed.
  - by_eval.
Defined.

Lemma deleteRecord_undoes_addRecord_witness :
  deleteRecord (VStr "21") seed21 =
    (Return {| success := true;
               message := "Record 21 deleted successfully.";
               removed := Some Test21 |},
     {| recordsData := seed_records; nextId := 22 |}).
Proof.
  apply (@deleteRecord_undoes_addRecord iso_engine 1767225600123 (VStr " Test ")
           (VStr "Glaucoma") VUndefined seed Test21 seed21).
  - apply reachable_seed.
  - apply addRecord_on_seed.
Defined.

Lemma updateRecord_idempotent_witness :
  @updateRecord iso_engine (VStr "5") (VStr " Zed ") (VStr "Uveitis") VNull
    (put 4 Zed_uveitis seed) = (Return Zed_uveitis, put 4 Zed_uveitis seed).
Proof.
  apply (@updateRecord_idempotent iso_engine (VStr "5") (VStr " Zed ")
           (VStr "Uveitis") VNull seed).
  apply updateRecord_on_seed.
Defined.

Lemma record_after_updateRecord_witness :
  record (VStr "5") (put 4 Zed_uveitis seed) =
    (Return (Some Zed_uveitis), put 4 Zed_uveitis seed)
  ∧ Rec.id Zed_uveitis = "5".
Proof.
  apply (@record_after_updateRecord iso_engine (VStr "5") (VStr " Zed ")
           (VStr "Uveitis") VNull seed).
  apply updateRecord_on_seed.
Defined.

Lemma updateRecord_error_witness :
  match (@updateRecord iso_engine (VStr "5") (VStr "Zed") (VStr "Flu")
           (VStr "not-a-date") seed).1 with
  | Throw e =>
      e = Error "Disease must be one of: Bulging_Eyes, Cataracts, Crossed_Eyes, Glaucoma, Uveitis"
  | Return _ => False
  end.
Proof.
  destruct (@updateRecord iso_engine (VStr "5") (VStr "Zed") (VStr "Flu")
              (VStr "not-a-date") seed) as [[r|e] st'] eqn:Hupd;
    [vm_compute in Hupd; discriminate Hupd|].
  destruct (@updateRecord_error iso_engine (VStr "5") (VStr "Zed") (VStr "Flu")
              (VStr "not-a-date") seed e) as (_ & Hfound);
    [by rewrite Hupd|].
  destruct Hfound as (_ & Hdisease & _); [by_eval|].
  apply Hdisease.
  - intros (s & [= <-] & Hs). vm_compute in Hs. discriminate.
  - exists "Flu". split; [reflexivity|by_eval].
Defined.

Lemma reachable_well_formed_witness :
  Forall well_formed
    (recordsData (@exec iso_engine
       (UpdateRecord (VStr "5") (VStr " Zed ") (VStr "Uveitis") VNull) seed).2).
Proof.
  apply (@reachable_well_formed iso_engine).
  apply reachable_exec, reachable_seed.
Defined.

Lemma reachable_ids_increasing_witness :
  21 ≤ nextId seed21
  ∧ Z.of_nat (length (recordsData seed21)) < nextId seed21
  ∧ ∃ ns, Rec.id <$> recordsData seed21 = ToString ∘ VNum <$> ns
          ∧ StronglySorted Z.lt ns
          ∧ Forall (λ n, 1 ≤ n < nextId seed21) ns.
Proof.
  apply (@reachable_ids_increasing iso_engine seed21).
  change seed21 with
    (@exec iso_engine
       (AddRecord 1767225600123 (VStr " Test ") (VStr "Glaucoma") VUndefined) seed).2.
  apply reachable_exec, reachable_seed.
Defined.

Lemma other_lookups_preserved_witness :
  (record (VStr "5") (@exec iso_engine (DeleteRecord (VStr "3")) seed).2).1 =
  (record (VStr "5") seed).1.
Proof.
  apply (@other_lookups_preserved iso_engine (DeleteRecord (VStr "3")) (VStr "5") seed).
  vm_compute; discriminate.
Defined.

Example scenario_bookkeeping :
  count added
    (@run iso_engine
       [AddRecord 0 (VStr "A") (VStr "Glaucoma") VUndefined;
        DeleteRecord (VStr "3"); DeleteRecord (VStr "3");
        AddRecord 1 (VStr " ") (VStr "Uveitis") VNull] seed).1 = 1
  ∧ count deleted
    (@run iso_engine
       [AddRecord 0 (VStr "A") (VStr "Glaucoma") VUndefined;
        DeleteRecord (VStr "3"); DeleteRecord (VStr "3");
        AddRecord 1 (VStr " ") (VStr "Uveitis") VNull] seed).1 = 1.
Proof. split; vm_compute; reflexivity. Qed.

Lemma updateRecord_returns_exactly_when_witness :
  (∃ r' st', @updateRecord iso_engine (VStr "5") VNull (VStr "Uveitis") VUndefined seed =
               (Return r', st'))
  ∧ ∃ e, (@updateRecord iso_engine (VStr "5") VNull (VStr "Uveitis") (VStr "") seed).1 =
           Throw e.
Proof.
  split.
  - apply (@updateRecord_returns_exactly_when iso_engine (VStr "5") VNull
             (VStr "Uveitis") VUndefined seed).
    split; [by_eval|]. split_and!; [done| |done].
    intros d [= <-]. by_eval.
  - apply (@updateRecord_returns_exactly_when iso_engine (VStr "5") VNull
             (VStr "Uveitis") VUndefined seed).
Defined.
